(** * beeswax.server.hive_server2_lib: a shallow embedding

    The module adapts the HiveServer2 Thrift interface (TCLIService) to the
    older Beeswax client API.  Wire structures are records, Python's dynamic
    scalars are a small sum type, dictionaries are [gmap]s keyed by strings,
    exceptions are values of [Exn] carried by a [result], and everything that
    talks to the Thrift stub or to the session table runs in a state-and-error
    monad over an abstract backend which also keeps the trace of the calls
    that were made. *)

From Stdlib Require Import ZArith Ascii String List Bool Lia.
From stdpp Require Import base option list gmap strings.

Local Open Scope string_scope.
Local Open Scope list_scope.
Local Open Scope Z_scope.

(** ** Python values and built-ins *)

Module Py.

(** The scalars a decoded column can hold.  A double is kept as its 64-bit
    IEEE-754 pattern: the module never computes on it. *)
Inductive value : Type :=
| VNone
| VBool (b : bool)
| VInt (z : Z)
| VDouble (bits : Z)
| VStr (s : string).

#[global] Instance value_eq_dec : EqDecision value.
Proof. solve_decision. Defined.

(** [bool(v)]: None, False, 0, 0.0 (either sign) and '' are falsy. *)
Definition truthy (v : value) : bool :=
  match v with
  | VNone => false
  | VBool b => b
  | VInt z => negb (z =? 0)
  | VDouble bits => negb (Z.land bits 0x7FFFFFFFFFFFFFFF =? 0)
  | VStr s => negb (String.eqb s "")
  end.

(** ['%s' % v] for the values that reach string formatting here. *)
Definition str_of_option (o : option string) : string :=
  match o with
  | None => "None"
  | Some s => s
  end.

(** Bounds of a slice with step 1: a negative bound counts from the end,
    and the result is clamped to [0, len]. *)
Definition slice_bound (len : nat) (i : Z) : nat :=
  let j := if i <? 0 then i + Z.of_nat len else i in
  if j <? 0 then O
  else if Z.of_nat len <? j then len
  else Z.to_nat j.

(** [l[start:stop]], an omitted bound being [None]. *)
Definition slice {A} (start stop : option Z) (l : list A) : list A :=
  let n := length l in
  let lo := match start with None => O | Some i => slice_bound n i end in
  let hi := match stop with None => n | Some i => slice_bound n i end in
  take (hi - lo)%nat (drop lo l).

(** [s.split(sep)] for a one-character separator: every occurrence cuts. *)
Fixpoint split (sep : ascii) (s : string) : list string :=
  match s with
  | EmptyString => [EmptyString]
  | String c s' =>
      if Ascii.eqb c sep then EmptyString :: split sep s'
      else match split sep s' with
           | [] => [String c EmptyString]
           | w :: ws => String c w :: ws
           end
  end.

(** [sep.join(l)] *)
Definition join (sep : string) (l : list string) : string :=
  String.concat sep l.

End Py.

(** ** The regular expressions of the module

    The module uses [re.search] with two patterns that are modelled here:
    an alternation of literals under [re.I], and a literal followed by one
    capturing group [([^c]+)].  [re.search] tries the start positions from
    left to right and returns the first match. *)

Module Re.

(** Case folding of [re.I] on byte strings: ASCII letters only. *)
Definition lower (c : ascii) : ascii :=
  let n := nat_of_ascii c in
  if ((65 <=? n) && (n <=? 90))%nat then ascii_of_nat (n + 32) else c.

(** Does the literal [p] match at the start of [s]? *)
Fixpoint starts_with (ci : bool) (p s : string) : bool :=
  match p, s with
  | EmptyString, _ => true
  | String _ _, EmptyString => false
  | String a p', String b s' =>
      (if ci then Ascii.eqb (lower a) (lower b) else Ascii.eqb a b)
      && starts_with ci p' s'
  end.

(** [re.search('p1|p2|...', s, re.I) is not None] for literal alternatives. *)
Fixpoint search_literals (ci : bool) (alts : list string) (s : string) : bool :=
  existsb (fun p => starts_with ci p s) alts
  || match s with
     | EmptyString => false
     | String _ s' => search_literals ci alts s'
     end.

(** What remains of [s] after the literal [p], when [s] starts with it. *)
Fixpoint strip (p s : string) : option string :=
  match p, s with
  | EmptyString, _ => Some s
  | String _ _, EmptyString => None
  | String a p', String b s' =>
      if Ascii.eqb a b then strip p' s' else None
  end.

(** The longest prefix of [s] free of the character [c]: what a greedy
    [[^c]*] consumes when nothing follows it in the pattern. *)
Fixpoint run_not (c : ascii) (s : string) : string :=
  match s with
  | EmptyString => EmptyString
  | String a s' => if Ascii.eqb a c then EmptyString else String a (run_not c s')
  end.

(** The pattern [lit([^c]+)] anchored at the start of [s]: group 1. *)
Definition match_literal_run (lit : string) (c : ascii) (s : string) : option string :=
  match strip lit s with
  | None => None
  | Some rest =>
      match run_not c rest with
      | EmptyString => None
      | g => Some g
      end
  end.

(** [re.search('lit([^c]+)', s)]: [None], or group 1 of the leftmost match. *)
Fixpoint search_literal_run (lit : string) (c : ascii) (s : string) : option string :=
  match match_literal_run lit c s with
  | Some g => Some g
  | None =>
      match s with
      | EmptyString => None
      | String _ s' => search_literal_run lit c s'
      end
  end.

End Re.

(** ** TCLIService.ttypes: the wire structures the module reads and builds *)

Module ttypes.

Inductive TStatusCode : Type :=
| SUCCESS_STATUS
| SUCCESS_WITH_INFO_STATUS
| STILL_EXECUTING_STATUS
| ERROR_STATUS
| INVALID_HANDLE_STATUS.

Inductive TFetchOrientation : Type :=
| FETCH_NEXT
| FETCH_PRIOR
| FETCH_RELATIVE
| FETCH_ABSOLUTE
| FETCH_FIRST
| FETCH_LAST.

Record TStatus : Type := {
  statusCode : TStatusCode;
  errorMessage : option string
}.

Record THandleIdentifier : Type := {
  guid : string;
  secret : string
}.

Record TSessionHandle : Type := {
  sessionId : THandleIdentifier
}.

Record TOperationHandle : Type := {
  operationId : THandleIdentifier;
  operationType : Z;
  hasResultSet : bool;
  modifiedRowCount : option Z
}.

(** The seven value wrappers (TBoolValue, TByteValue, ...) have one optional
    field [value]; it is unset for an SQL NULL. *)
Record TValue (A : Type) : Type := {
  value : option A
}.
Arguments value {A} _.

Record TColumnValue : Type := {
  boolVal : option (TValue bool);
  byteVal : option (TValue Z);
  i16Val : option (TValue Z);
  i32Val : option (TValue Z);
  i64Val : option (TValue Z);
  doubleVal : option (TValue Z);
  stringVal : option (TValue string)
}.

Record TRow : Type := {
  colVals : list TColumnValue
}.

Record TRowSet : Type := {
  startRowOffset : Z;
  rows : list TRow
}.

(** Of a column descriptor the modelled code reads the name only; the comment
    is kept, the type descriptor and the position are left out. *)
Record TColumnDesc : Type := {
  columnName : string;
  comment : option string
}.

Record TTableSchema : Type := {
  columns : list TColumnDesc
}.

#[global] Instance TStatusCode_eq_dec : EqDecision TStatusCode.
Proof. solve_decision. Defined.

#[global] Instance TFetchOrientation_eq_dec : EqDecision TFetchOrientation.
Proof. solve_decision. Defined.

(** *** Requests

    A request is an object whose attribute [sessionHandle] may be missing
    (the outer [None]: the class has no such field), present and unset
    ([Some None]), or bound. *)

Inductive ReqBody : Type :=
| GetSchemasBody
| GetTablesBody (schemaName tableName : string)
| GetColumnsBody (schemaName tableName : string)
| ExecuteStatementBody (statement : string) (confOverlay : list (string * string))
| FetchResultsBody (operationHandle : TOperationHandle)
    (orientation : TFetchOrientation) (maxRows : Z)
| GetResultSetMetadataBody (operationHandle : TOperationHandle)
| GetOperationStatusBody (operationHandle : TOperationHandle)
| GetLogBody (operationHandle : TOperationHandle).

Record Req : Type := {
  sessionHandle : option (option TSessionHandle);
  body : ReqBody
}.

Definition TGetSchemasReq : Req :=
  {| sessionHandle := Some None; body := GetSchemasBody |}.

Definition TGetTablesReq (schemaName tableName : string) : Req :=
  {| sessionHandle := Some None; body := GetTablesBody schemaName tableName |}.

Definition TExecuteStatementReq (statement : string)
    (confOverlay : list (string * string)) : Req :=
  {| sessionHandle := Some None; body := ExecuteStatementBody statement confOverlay |}.

Definition TFetchResultsReq (operationHandle : TOperationHandle)
    (orientation : TFetchOrientation) (maxRows : Z) : Req :=
  {| sessionHandle := None;
     body := FetchResultsBody operationHandle orientation maxRows |}.

Definition TGetResultSetMetadataReq (operationHandle : TOperationHandle) : Req :=
  {| sessionHandle := None; body := GetResultSetMetadataBody operationHandle |}.

Record TOpenSessionReq : Type := {
  username : string;
  configuration : list (string * string)
}.

(** *** Responses *)

Record TOpenSessionResp : Type := {
  open_status : TStatus;
  serverProtocolVersion : Z;
  open_sessionHandle : TSessionHandle
}.

(** TGetSchemasResp, TGetTablesResp, TGetColumnsResp and
    TExecuteStatementResp: a status and an operation handle. *)
Record TOperationResp : Type := {
  op_status : TStatus;
  operationHandle : TOperationHandle
}.

Record TFetchResultsResp : Type := {
  fetch_status : TStatus;
  hasMoreRows : bool;
  results : TRowSet
}.

Record TGetResultSetMetadataResp : Type := {
  meta_status : TStatus;
  schema : TTableSchema
}.

Record TGetOperationStatusResp : Type := {
  opstate_status : TStatus;
  operationState : Z
}.

Record TGetLogResp : Type := {
  log_status : TStatus;
  log_text : string
}.

(** The methods of TCLIService.Client that go through [call], indexed by
    the type of their response. *)
Inductive rpc : Type -> Type :=
| GetSchemas : rpc TOperationResp
| GetTables : rpc TOperationResp
| GetColumns : rpc TOperationResp
| ExecuteStatement : rpc TOperationResp
| FetchResults : rpc TFetchResultsResp
| GetResultSetMetadata : rpc TGetResultSetMetadataResp
| GetOperationStatus : rpc TGetOperationStatusResp
| GetLog : rpc TGetLogResp.

(** [fn.attr]: the name under which the wrapped stub method is found again. *)
Definition attr {R} (fn : rpc R) : string :=
  match fn with
  | GetSchemas => "GetSchemas"
  | GetTables => "GetTables"
  | GetColumns => "GetColumns"
  | ExecuteStatement => "ExecuteStatement"
  | FetchResults => "FetchResults"
  | GetResultSetMetadata => "GetResultSetMetadata"
  | GetOperationStatus => "GetOperationStatus"
  | GetLog => "GetLog"
  end.

(** [res.status] *)
Definition status {R} (fn : rpc R) : R -> TStatus :=
  match fn in rpc R return R -> TStatus with
  | GetSchemas => op_status
  | GetTables => op_status
  | GetColumns => op_status
  | ExecuteStatement => op_status
  | FetchResults => fetch_status
  | GetResultSetMetadata => meta_status
  | GetOperationStatus => opstate_status
  | GetLog => log_status
  end.

End ttypes.
Import ttypes.

(** ** Exceptions and fallible computations *)

Inductive Exn : Type :=
| IndexError
| KeyError
| AttributeError
| TypeError
| NoSuchObjectException
| QueryServerException (req : Req) (res_status : TStatus).

Inductive result (A : Type) : Type :=
| Ok (a : A)
| Raise (e : Exn).
Arguments Ok {A} a.
Arguments Raise {A} e.

#[global] Instance result_ret : MRet result := fun _ a => Ok a.
#[global] Instance result_bind : MBind result := fun _ _ f m =>
  match m with
  | Ok a => f a
  | Raise e => Raise e
  end.
#[global] Instance result_fmap : FMap result := fun _ _ f m =>
  match m with
  | Ok a => Ok (f a)
  | Raise e => Raise e
  end.

(** [l[i]] for a list: IndexError out of range, negative indices from the end. *)
Definition py_index {A} (l : list A) (i : Z) : result A :=
  let j := if i <? 0 then i + Z.of_nat (length l) else i in
  if j <? 0 then Raise IndexError
  else match l !! Z.to_nat j with
       | Some x => Ok x
       | None => Raise IndexError
       end.

(** [d[k]] for a dict *)
Definition py_getitem {V} (d : gmap string V) (k : string) : result V :=
  match d !! k with
  | Some v => Ok v
  | None => Raise KeyError
  end.

(** A comprehension or loop whose body may raise: left to right, the first
    exception ends it. *)
Fixpoint for_each {A B} (f : A -> result B) (l : list A) : result (list B) :=
  match l with
  | [] => Ok []
  | x :: l' =>
      y ← f x;
      ys ← for_each f l';
      Ok (y :: ys)
  end.

(** ** Value Decoder: HiveServerTColumnValue *)

Definition of_bool (o : option bool) : Py.value :=
  match o with Some b => Py.VBool b | None => Py.VNone end.
Definition of_int (o : option Z) : Py.value :=
  match o with Some z => Py.VInt z | None => Py.VNone end.
Definition of_double (o : option Z) : Py.value :=
  match o with Some d => Py.VDouble d | None => Py.VNone end.
Definition of_string (o : option string) : Py.value :=
  match o with Some s => Py.VStr s | None => Py.VNone end.

Module HiveServerTColumnValue.

(** The property [val]; falling off the last [elif] returns None. *)
Definition val (column_value : TColumnValue) : Py.value :=
  match boolVal column_value with
  | Some w => of_bool (value w)
  | None =>
  match byteVal column_value with
  | Some w => of_int (value w)
  | None =>
  match i16Val column_value with
  | Some w => of_int (value w)
  | None =>
  match i32Val column_value with
  | Some w => of_int (value w)
  | None =>
  match i64Val column_value with
  | Some w => of_int (value w)
  | None =>
  match doubleVal column_value with
  | Some w => of_double (value w)
  | None =>
  match stringVal column_value with
  | Some w => of_string (value w)
  | None => Py.VNone
  end end end end end end end.

End HiveServerTColumnValue.

(** ** Row/Schema View: HiveServerTRow *)

Module HiveServerTRow.

(** [enumerate(l)] *)
Definition enumerate {A} (l : list A) : list (nat * A) :=
  zip (seq 0 (length l)) l.

(** [filter(lambda (i, col): col.columnName == column_name,
            enumerate(self.schema.columns))[0][0]] *)
Definition _get_col_position (schema : TTableSchema) (column_name : string)
  : result nat :=
  hit ← py_index
        (List.filter (fun '(i, col) => String.eqb (columnName col) column_name)
                     (enumerate (columns schema))) 0;
  Ok (fst hit).

Definition col (row : TRow) (schema : TTableSchema) (colName : string)
  : result Py.value :=
  pos ← _get_col_position schema colName;
  v ← py_index (colVals row) (Z.of_nat pos);
  Ok (HiveServerTColumnValue.val v).

Definition fields (row : TRow) : list Py.value :=
  map HiveServerTColumnValue.val (colVals row).

End HiveServerTRow.

(** ** HiveServerTRowSet *)

Module HiveServerTRowSet.

(** The class is built over a TTableSchema by the catalog code and over the
    whole metadata response (or None) by HiveServerDataTable: [S] is the type
    of whatever was passed as [schema]. *)
Record t (S : Type) : Type := {
  row_set : TRowSet;
  rows : list TRow;
  schema : S;
  startRowOffset : Z
}.
Arguments row_set {S} _.
Arguments rows {S} _.
Arguments schema {S} _.
Arguments startRowOffset {S} _.

Definition __init__ {S} (row_set : TRowSet) (schema : S) : t S :=
  {| row_set := row_set;
     rows := ttypes.rows row_set;
     schema := schema;
     startRowOffset := ttypes.startRowOffset row_set |}.

Definition is_empty {S} (self : t S) : bool :=
  Nat.eqb (length (rows self)) 0.

(** The inner loop of [cols]: [cols[col_name] = row.col(col_name)]. *)
Fixpoint row_cols (row : TRow) (schema : TTableSchema) (col_names : list string)
    (cols : gmap string Py.value) : result (gmap string Py.value) :=
  match col_names with
  | [] => Ok cols
  | col_name :: rest =>
      v ← HiveServerTRow.col row schema col_name;
      row_cols row schema rest (<[col_name := v]> cols)
  end.

Definition cols (self : t TTableSchema) (col_names : list string)
  : result (list (gmap string Py.value)) :=
  for_each (fun row => row_cols row (schema self) col_names ∅) (rows self).

(** [next]: the first row is popped off [self.rows]; [None] stands for
    StopIteration.  [self.rows] is the very list the wire row set holds
    (the constructor copies the reference), so [pop(0)] shortens
    [self.row_set.rows] as well. *)
Definition next {S} (self : t S) : option (TRow * t S) :=
  match rows self with
  | [] => None
  | row :: rest =>
      Some (row, {| row_set := {| ttypes.startRowOffset :=
                                    ttypes.startRowOffset (row_set self);
                                  ttypes.rows := rest |};
                    rows := rest;
                    schema := schema self;
                    startRowOffset := startRowOffset self |})
  end.

End HiveServerTRowSet.

(** ** Result Table: HiveServerDataTable *)

Module HiveServerDataTable.

Record t : Type := {
  schema : option TTableSchema;
  row_set : HiveServerTRowSet.t (option TGetResultSetMetadataResp);
  has_more : bool;
  startRowOffset : Z
}.

(** [schema and schema.schema]: a response object is truthy. *)
Definition __init__ (results : TFetchResultsResp)
    (schema : option TGetResultSetMetadataResp) : t :=
  let row_set := HiveServerTRowSet.__init__ (ttypes.results results) schema in
  {| schema := match schema with
               | None => None
               | Some meta => Some (ttypes.schema meta)
               end;
     row_set := row_set;
     has_more := negb (HiveServerTRowSet.is_empty row_set);
     startRowOffset := HiveServerTRowSet.startRowOffset row_set |}.

Definition cols (self : t) : list TColumnDesc :=
  match schema self with
  | Some sch => columns sch
  | None => []
  end.

(** The generator [rows]: drains the row set with [next], yielding
    [row.fields()] for each row; [fuel] bounds the loop by the number of rows
    left. *)
Fixpoint drain {S} (fuel : nat) (rs : HiveServerTRowSet.t S) : list (list Py.value) :=
  match fuel with
  | O => []
  | S fuel' =>
      match HiveServerTRowSet.next rs with
      | None => []
      | Some (row, rs') => HiveServerTRow.fields row :: drain fuel' rs'
      end
  end.

Definition rows (self : t) : list (list Py.value) :=
  drain (length (HiveServerTRowSet.rows (row_set self))) (row_set self).

(** The same loop together with the row set it leaves behind: [next] pops
    the rows off the list the table holds, so the table is changed by being
    read. *)
Fixpoint drain_from {S} (fuel : nat) (rs : HiveServerTRowSet.t S)
  : list (list Py.value) * HiveServerTRowSet.t S :=
  match fuel with
  | O => ([], rs)
  | S fuel' =>
      match HiveServerTRowSet.next rs with
      | None => ([], rs)
      | Some (row, rs') =>
          let (yielded, remaining) := drain_from fuel' rs' in
          (HiveServerTRow.fields row :: yielded, remaining)
      end
  end.

(** [list(self.rows())] and the table afterwards; [has_more] and
    [startRowOffset] were set by the constructor and stay. *)
Definition read_rows (self : t) : list (list Py.value) * t :=
  let '(yielded, remaining) :=
    drain_from (length (HiveServerTRowSet.rows (row_set self))) (row_set self) in
  (yielded,
   {| schema := schema self;
      row_set := remaining;
      has_more := has_more self;
      startRowOffset := startRowOffset self |}).

End HiveServerDataTable.

(** ** HiveServerTTableSchema *)

Module HiveServerTTableSchema.

Record t : Type := {
  columns : TRowSet;
  schema : TTableSchema
}.

Definition cols (self : t) : result (list (gmap string Py.value)) :=
  HiveServerTRowSet.cols
    (HiveServerTRowSet.__init__ (columns self) (schema self))
    ["col_name"; "data_type"; "comment"].

End HiveServerTTableSchema.

(** ** Catalog Object Model: HiveServerTable *)

Module HiveServerTable.

Record t : Type := {
  table : TRow;
  table_schema : TTableSchema;
  results : TRowSet;
  schema : TTableSchema
}.

(** After the guard the list is not empty, so
    [table_results.rows and table_results.rows[0] or ''] is its first row
    (a row object is truthy). *)
Definition __init__ (table_results : TRowSet) (table_schema : TTableSchema)
    (desc_results : TRowSet) (desc_schema : TTableSchema) : result t :=
  match ttypes.rows table_results with
  | [] => Raise NoSuchObjectException
  | row :: _ =>
      Ok {| table := row;
            table_schema := table_schema;
            results := desc_results;
            schema := desc_schema |}
  end.

(** [HiveServerTTableSchema(self.results, self.schema).cols()], which three
    of the properties below start with. *)
Definition describe_cols (self : t) : result (list (gmap string Py.value)) :=
  HiveServerTTableSchema.cols
    {| HiveServerTTableSchema.columns := results self;
       HiveServerTTableSchema.schema := schema self |}.

Definition name (self : t) : result Py.value :=
  HiveServerTRow.col (table self) (table_schema self) "TABLE_NAME".

(** [sum([bool(col['col_name']) for col in cols])] *)
Definition count_true (l : list bool) : Z :=
  fold_left (fun acc (b : bool) => acc + (if b then 1 else 0)) l 0.

Definition cols (self : t) : result (list (gmap string Py.value)) :=
  cols ← describe_cols self;
  named ← for_each (fun col => Py.truthy <$> py_getitem col "col_name") cols;
  if count_true named =? Z.of_nat (length cols) then Ok cols
  else Ok (Py.slice None (Some (-2)) cols).

Definition extended_describe (self : t) : result Py.value :=
  cols ← describe_cols self;
  last ← py_index cols (-1);
  py_getitem last "data_type".

(** [re.search] wants a string: anything else is a TypeError. *)
Definition path_location (self : t) : result (option string) :=
  describe ← extended_describe self;
  match describe with
  | Py.VStr text => Ok (Re.search_literal_run "location:" "," text)
  | _ => Raise TypeError
  end.

End HiveServerTable.

(** ** PartitionValueCompatible and ResultCompatible *)

Module PartitionValueCompatible.

Record t : Type := {
  values : list string;
  sd_location : string
}.

(** [part.split('=')[1]]: only a string has [split]. *)
Definition part_value (part : Py.value) : result string :=
  match part with
  | Py.VStr s => py_index (Py.split "=" s) 1
  | _ => Raise AttributeError
  end.

(** [','.join(partition)]: only strings can be joined. *)
Definition join_parts (partition : list Py.value) : result string :=
  parts ← for_each (fun part => match part with
                                | Py.VStr s => Ok s
                                | _ => Raise TypeError
                                end) partition;
  Ok (Py.join "," parts).

Definition __init__ (partition : list Py.value) (table : HiveServerTable.t)
  : result t :=
  values ← for_each part_value partition;
  location ← HiveServerTable.path_location table;
  joined ← join_parts partition;
  Ok {| values := values;
        sd_location := Py.str_of_option location ++ "/" ++ joined |}.

End PartitionValueCompatible.

Module ResultCompatible.

Record t : Type := {
  data_table : HiveServerDataTable.t;
  has_more : bool;
  start_row : Z;
  ready : bool
}.

Definition __init__ (data_table : HiveServerDataTable.t) : t :=
  {| data_table := data_table;
     has_more := HiveServerDataTable.has_more data_table;
     start_row := HiveServerDataTable.startRowOffset data_table;
     ready := true |}.

Definition cols (self : t) : list string :=
  map columnName (HiveServerDataTable.cols (data_table self)).

End ResultCompatible.

(** ** beeswax.models and the backend

    The session table and the query handles live in beeswax.models, the
    Thrift stub in TCLIService: they are parameters of the development.  A
    backend has a state of its own (the server, the session table), answers
    every stub method with a response, and encodes and decodes handles. *)

Module models.

Record User : Type := {
  username : string
}.

Record Session : Type := {
  owner : User;
  application : string;
  status_code : TStatusCode;
  secret : string;
  guid : string;
  server_protocol_version : Z
}.

Record HiveServerQueryHandle : Type := {
  handle_secret : string;
  handle_guid : string;
  operation_type : Z;
  has_result_set : bool;
  modified_row_count : option Z
}.

End models.

Record Backend : Type := {
  World : Type;
  (** [self._client.OpenSession(req)] *)
  OpenSession : TOpenSessionReq -> World -> TOpenSessionResp * World;
  (** [getattr(self._client, attr fn)(req)] *)
  invoke : forall R, rpc R -> Req -> World -> R * World;
  (** [Session.objects.get_session(user, application)] *)
  get_session : models.User -> string -> World -> option models.Session;
  (** [Session.objects.create(...)]: the table after the insertion *)
  create : models.Session -> World -> World;
  (** [session.get_handle()] *)
  get_handle : models.Session -> TSessionHandle;
  (** [HiveServerQueryHandle(secret=..., guid=...).get()] *)
  encode_handle : string -> string -> string * string;
  (** [handle.get_rpc_handle()] *)
  get_rpc_handle : models.HiveServerQueryHandle -> TOperationHandle
}.
Arguments invoke _ {R} _ _ _.

(** What the client did to the outside, in order. *)
Inductive Event : Type :=
| EvGetSession (user : models.User) (application : string)
| EvOpenSession (req : TOpenSessionReq)
| EvCreateSession (session : models.Session)
| EvCall (name : string) (req : Req).

Definition is_call (e : Event) : bool :=
  match e with
  | EvCall _ _ => true
  | _ => false
  end.

Record State (B : Backend) : Type := {
  world : World B;
  trace : list Event
}.
Arguments world {B} _.
Arguments trace {B} _.

Definition M (B : Backend) (A : Type) : Type :=
  State B -> result A * State B.

#[global] Instance M_ret {B} : MRet (M B) := fun _ a st => (Ok a, st).
#[global] Instance M_bind {B} : MBind (M B) := fun _ _ f m st =>
  match m st with
  | (Ok a, st') => f a st'
  | (Raise e, st') => (Raise e, st')
  end.

Definition lift {B A} (r : result A) : M B A := fun st => (r, st).

Definition raise {B A} (e : Exn) : M B A := lift (Raise e).

Definition emit {B} (e : Event) (st : State B) : State B :=
  {| world := world st; trace := trace st ++ [e] |}.

Record QueryServer : Type := {
  server_host : string;
  server_port : Z;
  server_name : string
}.

(** ** Session/Execution Client: HiveServerClient *)

Module HiveServerClient.

Record t : Type := {
  query_server : QueryServer;
  user : models.User
}.

Section Client.
Context {B : Backend} (self : t).

Definition objects_get_session (user : models.User) (application : string)
  : M B (option models.Session) :=
  fun st => (Ok (get_session B user application (world st)),
             emit (EvGetSession user application) st).

Definition objects_create (session : models.Session) : M B models.Session :=
  fun st => (Ok session,
             emit (EvCreateSession session)
                  {| world := create B session (world st); trace := trace st |}).

Definition client_OpenSession (req : TOpenSessionReq) : M B TOpenSessionResp :=
  fun st => let '(res, w) := OpenSession B req (world st) in
            (Ok res, emit (EvOpenSession req) {| world := w; trace := trace st |}).

Definition client_invoke {R} (fn : rpc R) (req : Req) : M B R :=
  fun st => let '(res, w) := invoke B fn req (world st) in
            (Ok res, emit (EvCall (attr fn) req) {| world := w; trace := trace st |}).

Definition open_session (user : models.User) : M B models.Session :=
  let req := {| username := models.username user; configuration := [] |} in
  res ← client_OpenSession req;
  let sessionId := sessionId (open_sessionHandle res) in
  let '(encoded_status, encoded_guid) :=
    encode_handle B (ttypes.secret sessionId) (ttypes.guid sessionId) in
  objects_create
    {| models.owner := user;
       models.application := server_name (query_server self);
       models.status_code := statusCode (open_status res);
       models.secret := encoded_status;
       models.guid := encoded_guid;
       models.server_protocol_version := serverProtocolVersion res |}.

(** [req.sessionHandle = session.get_handle()] *)
Definition bind_session (req : Req) (session : models.Session) : Req :=
  {| sessionHandle := Some (Some (get_handle B session)); body := body req |}.

(** [call], first part: the session is looked up (opened when there is
    none), an unset [sessionHandle] is filled in, and [fn(req)] is sent. *)
Definition call_send {R} (fn : rpc R) (req : Req) : M B (Req * R) :=
  session ← objects_get_session (user self) (server_name (query_server self));
  session ← match session with
            | None => open_session (user self)
            | Some session => mret session
            end;
  let req := match sessionHandle req with
             | Some None => bind_session req session
             | _ => req
             end in
  res ← client_invoke fn req;
  mret (req, res).

(** [res.status.statusCode == ERROR_STATUS and
     re.search('Invalid SessionHandle|Invalid session',
               res.status.errorMessage or '', re.I)] *)
Definition stale_session (st : TStatus) : bool :=
  bool_decide (statusCode st = ERROR_STATUS)
  && Re.search_literals true ["Invalid SessionHandle"; "Invalid session"]
       (default "" (errorMessage st)).

(** [call], second part: on a stale session a new one is opened, the request
    is bound to it and sent again through the stub method of the same name. *)
Definition call_renew {R} (fn : rpc R) (sent : Req * R) : M B (Req * R) :=
  let '(req, res) := sent in
  if stale_session (status fn res) then
    session ← open_session (user self);
    let req := bind_session req session in
    res ← client_invoke fn req;
    mret (req, res)
  else mret (req, res).

Definition accepted (code : TStatusCode) : bool :=
  bool_decide (code ∈ [SUCCESS_STATUS; SUCCESS_WITH_INFO_STATUS;
                       STILL_EXECUTING_STATUS]).

(** [call], last part: the status check, skipped when [status] is None. *)
Definition call_check {R} (fn : rpc R) (status : option TStatusCode)
    (sent : Req * R) : M B R :=
  let '(req, res) := sent in
  match status with
  | Some _ =>
      if negb (accepted (statusCode (ttypes.status fn res)))
      then raise (QueryServerException req (ttypes.status fn res))
      else mret res
  | None => mret res
  end.

Definition call {R} (fn : rpc R) (req : Req) (status : option TStatusCode)
  : M B R :=
  sent ← call_send fn req;
  sent ← call_renew fn sent;
  call_check fn status sent.

Definition fetch_result (operation_handle : TOperationHandle)
    (orientation : TFetchOrientation) (max_rows : Z)
  : M B (TFetchResultsResp * option TGetResultSetMetadataResp) :=
  let fetch_req := TFetchResultsReq operation_handle orientation max_rows in
  res ← call FetchResults fetch_req (Some SUCCESS_STATUS);
  schema ← (if hasResultSet operation_handle then
              let meta_req := TGetResultSetMetadataReq operation_handle in
              meta ← call GetResultSetMetadata meta_req (Some SUCCESS_STATUS);
              mret (Some meta)
            else mret None);
  mret (res, schema).

Definition execute_statement (statement : string) (max_rows : Z)
  : M B (TFetchResultsResp * option TGetResultSetMetadataResp) :=
  let req := TExecuteStatementReq statement [] in
  res ← call ExecuteStatement req (Some SUCCESS_STATUS);
  fetch_result (operationHandle res) FETCH_NEXT max_rows.

(** [schema.schema] where [schema] may be None *)
Definition schema_of (schema : option TGetResultSetMetadataResp)
  : result TTableSchema :=
  match schema with
  | Some meta => Ok (ttypes.schema meta)
  | None => Raise AttributeError
  end.

Definition get_databases : M B (list (gmap string Py.value)) :=
  let req := TGetSchemasReq in
  res ← call GetSchemas req (Some SUCCESS_STATUS);
  '(results, schema) ← fetch_result (operationHandle res) FETCH_NEXT 100;
  let col := if String.eqb (server_name (query_server self)) "impala"
             then "TABLE_SCHEM" else "TABLE_SCHEMA" in
  sch ← lift (schema_of schema);
  lift (HiveServerTRowSet.cols
          (HiveServerTRowSet.__init__ (ttypes.results results) sch) [col]).

(** The statement every method sends first on a Hive server. *)
Definition set_blocking : M B unit :=
  if String.eqb (server_name (query_server self)) "beeswax" then
    _ ← execute_statement "SET hive.server2.blocking.query=true" 100;
    mret tt
  else mret tt.

Definition get_table (database table_name : string) : M B HiveServerTable.t :=
  let req := TGetTablesReq database table_name in
  res ← call GetTables req (Some SUCCESS_STATUS);
  '(table_results, table_schema) ← fetch_result (operationHandle res) FETCH_NEXT 100;
  _ ← set_blocking;
  '(desc_results, desc_schema) ←
    execute_statement ("DESCRIBE EXTENDED " ++ table_name) 100;
  table_sch ← lift (schema_of table_schema);
  desc_sch ← lift (schema_of desc_schema);
  lift (HiveServerTable.__init__ (ttypes.results table_results) table_sch
          (ttypes.results desc_results) desc_sch).

Definition execute_query_statement (statement : string) (max_rows : Z)
  : M B HiveServerDataTable.t :=
  _ ← set_blocking;
  '(results, schema) ← execute_statement statement max_rows;
  mret (HiveServerDataTable.__init__ results schema).

Definition fetch_data (operation_handle : TOperationHandle)
    (orientation : TFetchOrientation) (max_rows : Z) : M B HiveServerDataTable.t :=
  '(results, schema) ← fetch_result operation_handle orientation max_rows;
  mret (HiveServerDataTable.__init__ results schema).

Definition get_partitions (database table_name : string) (max_parts : Z)
  : M B (list PartitionValueCompatible.t) :=
  table ← get_table database table_name;
  _ ← set_blocking;
  partitionTable ← execute_query_statement ("SHOW PARTITIONS " ++ table_name) 100;
  parts ← lift (for_each (fun partition =>
                            PartitionValueCompatible.__init__ partition table)
                         (HiveServerDataTable.rows partitionTable));
  mret (Py.slice (Some (- max_parts)) None parts).

Definition get_tables (database table_names : string)
  : M B (list (gmap string Py.value)) :=
  let req := TGetTablesReq database table_names in
  res ← call GetTables req (Some SUCCESS_STATUS);
  '(results, schema) ← fetch_result (operationHandle res) FETCH_NEXT 100;
  sch ← lift (schema_of schema);
  lift (HiveServerTRowSet.cols
          (HiveServerTRowSet.__init__ (ttypes.results results) sch)
          ["TABLE_NAME"]).

Definition get_columns (database table : string)
  : M B (TFetchResultsResp * option TGetResultSetMetadataResp) :=
  let req := {| sessionHandle := Some None;
                body := GetColumnsBody database table |} in
  res ← call GetColumns req (Some SUCCESS_STATUS);
  fetch_result (operationHandle res) FETCH_NEXT 100.

Definition get_operation_status (operation_handle : TOperationHandle)
  : M B TGetOperationStatusResp :=
  let req := {| sessionHandle := None;
                body := GetOperationStatusBody operation_handle |} in
  call GetOperationStatus req (Some SUCCESS_STATUS).

Definition get_log (operation_handle : TOperationHandle) : M B string :=
  let req := {| sessionHandle := None; body := GetLogBody operation_handle |} in
  res ← call GetLog req (Some SUCCESS_STATUS);
  mret (log_text res).

End Client.
End HiveServerClient.

(** ** Compatibility Facade: HiveServerClientCompatible *)

Module HiveServerClientCompatible.

Record t : Type := {
  _client : HiveServerClient.t;
  user : models.User;
  query_server : QueryServer
}.

Definition __init__ (client : HiveServerClient.t) : t :=
  {| _client := client;
     user := HiveServerClient.user client;
     query_server := HiveServerClient.query_server client |}.

Section Facade.
Context {B : Backend} (self : t).

Definition fetch (handle : models.HiveServerQueryHandle) (start_over : bool)
    (max_rows : option Z) : M B ResultCompatible.t :=
  let operationHandle := get_rpc_handle B handle in
  let max_rows := match max_rows with
                  | None => 10000
                  | Some n => n
                  end in
  let start_over := if String.eqb (server_name (query_server self)) "impala"
                    then false else start_over in
  let orientation := if start_over then FETCH_FIRST else FETCH_NEXT in
  data_table ← HiveServerClient.fetch_data (_client self) operationHandle
                 orientation max_rows;
  mret (ResultCompatible.__init__ data_table).

Definition get_databases : M B (list Py.value) :=
  let col := if String.eqb (server_name (query_server self)) "impala"
             then "TABLE_SCHEM" else "TABLE_SCHEMA" in
  tables ← HiveServerClient.get_databases (_client self);
  lift (for_each (fun table => py_getitem table col) tables).

Definition get_partitions (database table_name : string) (max_parts : Z)
  : M B (list PartitionValueCompatible.t) :=
  HiveServerClient.get_partitions (_client self) database table_name max_parts.

Definition get_tables (database table_names : string) : M B (list Py.value) :=
  tables ← HiveServerClient.get_tables (_client self) database table_names;
  lift (for_each (fun table => py_getitem table "TABLE_NAME") tables).

Definition get_log (handle : models.HiveServerQueryHandle) : M B string :=
  let operationHandle := get_rpc_handle B handle in
  HiveServerClient.get_log (_client self) operationHandle.

End Facade.
End HiveServerClientCompatible.

(** ** A scripted backend

    A small server to run the client against.  Its state holds the statuses
    scripted for the coming stub calls (success once the script is used up),
    the session on file and the number of sessions opened so far.  An
    operation handle carries, as its guid, the statement or the catalog
    request that created it, and FetchResults answers by that guid. *)

Module Fixture.

Record server : Type := {
  script : list TStatus;
  stored : option models.Session;
  opened : nat
}.

Definition ok_status : TStatus :=
  {| statusCode := SUCCESS_STATUS; errorMessage := None |}.

Definition error_status (msg : string) : TStatus :=
  {| statusCode := ERROR_STATUS; errorMessage := Some msg |}.

Definition next_status (w : server) : TStatus * server :=
  match script w with
  | [] => (ok_status, w)
  | st :: rest =>
      (st, {| script := rest; stored := stored w; opened := opened w |})
  end.

Definition string_value (s : string) : TColumnValue :=
  {| boolVal := None; byteVal := None; i16Val := None; i32Val := None;
     i64Val := None; doubleVal := None;
     stringVal := Some {| value := Some s |} |}.

Definition null_value : TColumnValue :=
  {| boolVal := None; byteVal := None; i16Val := None; i32Val := None;
     i64Val := None; doubleVal := None;
     stringVal := Some {| value := None |} |}.

Definition row_of (l : list string) : TRow :=
  {| colVals := map string_value l |}.

Definition schema_of_names (l : list string) : TTableSchema :=
  {| columns := map (fun n => {| columnName := n; comment := None |}) l |}.

Definition handle_for (what : string) : TOperationHandle :=
  {| operationId := {| guid := what; secret := "" |};
     operationType := 0;
     hasResultSet := true;
     modifiedRowCount := None |}.

Definition detail : string :=
  "Table(tableName:t, dbName:default, owner:hue, sd:StorageDescriptor(cols:[FieldSchema(name:id, type:int, comment:null)], location:hdfs://nn/warehouse/t, inputFormat:TextInputFormat), partitionKeys:[FieldSchema(name:datehour, type:int, comment:null)])".

(** The rows and the column names behind an operation handle;
    [catalog_col] is the name the server gives the schema column. *)
Definition answer (catalog_col : string) (what : string)
  : list TRow * list string :=
  if String.eqb what "GetSchemas" then
    ([row_of ["default"]; row_of ["sales"]], [catalog_col])
  else if String.eqb what "GetTables" then
    ([row_of ["t"; "TABLE"; "a table"]], ["TABLE_NAME"; "TABLE_TYPE"; "REMARKS"])
  else if String.eqb what "DESCRIBE EXTENDED t" then
    ([row_of ["id"; "int"; "key"];
      {| colVals := [string_value ""; null_value; null_value] |};
      {| colVals := [string_value "Detailed Table Information";
                     string_value detail; null_value] |}],
     ["col_name"; "data_type"; "comment"])
  else if String.eqb what "DESCRIBE EXTENDED flat" then
    ([row_of ["id"; "int"; "key"];
      row_of ["name"; "string"; "label"];
      row_of ["price"; "double"; "amount"]],
     ["col_name"; "data_type"; "comment"])
  else if String.eqb what "SHOW PARTITIONS t" then
    ([row_of ["datehour=1"]; row_of ["datehour=2"]; row_of ["datehour=3"];
      row_of ["datehour=4"]; row_of ["datehour=5"]],
     ["partition"])
  else ([], []).

Definition handle_of_body (b : ReqBody) : TOperationHandle :=
  match b with
  | FetchResultsBody h _ _ => h
  | GetResultSetMetadataBody h => h
  | GetOperationStatusBody h => h
  | GetLogBody h => h
  | ExecuteStatementBody statement _ => handle_for statement
  | GetSchemasBody => handle_for "GetSchemas"
  | GetTablesBody _ _ => handle_for "GetTables"
  | GetColumnsBody _ _ => handle_for "GetColumns"
  end.

Definition serve (catalog_col : string) {R} (fn : rpc R) (req : Req) (w : server)
  : R * server :=
  let '(st, w') := next_status w in
  let h := handle_of_body (body req) in
  let '(rws, names) := answer catalog_col (guid (operationId h)) in
  (match fn in rpc R return R with
   | GetSchemas | GetTables | GetColumns | ExecuteStatement =>
       {| op_status := st; operationHandle := h |}
   | FetchResults =>
       {| fetch_status := st; hasMoreRows := true;
          results := {| startRowOffset := 0; rows := rws |} |}
   | GetResultSetMetadata =>
       {| meta_status := st; schema := schema_of_names names |}
   | GetOperationStatus => {| opstate_status := st; operationState := 2 |}
   | GetLog => {| log_status := st; log_text := "" |}
   end, w').

Definition session_handle (n : nat) : TSessionHandle :=
  {| sessionId := {| guid := String (ascii_of_nat (48 + n)) "";
                     secret := "secret" |} |}.

Definition open (req : TOpenSessionReq) (w : server) : TOpenSessionResp * server :=
  ({| open_status := ok_status;
      serverProtocolVersion := 0;
      open_sessionHandle := session_handle (opened w) |},
   {| script := script w; stored := stored w; opened := S (opened w) |}).

Definition backend (catalog_col : string) : Backend :=
  {| World := server;
     OpenSession := open;
     invoke := fun R => @serve catalog_col R;
     get_session := fun _ _ w => stored w;
     create := fun s w =>
       {| script := script w; stored := Some s; opened := opened w |};
     get_handle := fun s =>
       {| sessionId := {| guid := models.guid s; secret := models.secret s |} |};
     encode_handle := fun secret guid => (secret, guid);
     get_rpc_handle := fun h =>
       {| operationId := {| guid := models.handle_guid h;
                            secret := models.handle_secret h |};
          operationType := models.operation_type h;
          hasResultSet := models.has_result_set h;
          modifiedRowCount := models.modified_row_count h |} |}.

Definition start (catalog_col : string) (statuses : list TStatus)
    (session : option models.Session) : State (backend catalog_col) :=
  {| world := ({| script := statuses; stored := session; opened := 0 |}
               : World (backend catalog_col));
     trace := [] |}.

Definition hue : models.User := {| models.username := "hue" |}.

Definition client (name : string) : HiveServerClient.t :=
  {| HiveServerClient.query_server :=
       {| server_host := "localhost"; server_port := 10000; server_name := name |};
     HiveServerClient.user := hue |}.

Definition session0 : models.Session :=
  {| models.owner := hue;
     models.application := "beeswax";
     models.status_code := SUCCESS_STATUS;
     models.secret := "old";
     models.guid := "old";
     models.server_protocol_version := 0 |}.

(** The table [t] of the catalog with the describe result of [what]. *)
Definition table_described_by (what : string) : HiveServerTable.t :=
  {| HiveServerTable.table := row_of ["t"; "TABLE"; "a table"];
     HiveServerTable.table_schema :=
       schema_of_names ["TABLE_NAME"; "TABLE_TYPE"; "REMARKS"];
     HiveServerTable.results :=
       {| startRowOffset := 0; rows := fst (answer "TABLE_SCHEMA" what) |};
     HiveServerTable.schema :=
       schema_of_names ["col_name"; "data_type"; "comment"] |}.

End Fixture.

(** ** Reference definitions

    What the properties below compare the code with. *)

(** The seven variants of a wire value in the order [val] tests them, each
    with the payload it would decode to. *)
Definition variants (cv : TColumnValue) : list (option Py.value) :=
  [ (fun w => of_bool (value w)) <$> boolVal cv;
    (fun w => of_int (value w)) <$> byteVal cv;
    (fun w => of_int (value w)) <$> i16Val cv;
    (fun w => of_int (value w)) <$> i32Val cv;
    (fun w => of_int (value w)) <$> i64Val cv;
    (fun w => of_double (value w)) <$> doubleVal cv;
    (fun w => of_string (value w)) <$> stringVal cv ].

Fixpoint first_populated {A} (l : list (option A)) : option A :=
  match l with
  | [] => None
  | Some a :: _ => Some a
  | None :: l' => first_populated l'
  end.


(** The position of a column worked out by hand: the index of the first
    descriptor of that name, counting from 0. *)
Fixpoint position_of (name : string) (cols : list TColumnDesc) : option nat :=
  match cols with
  | [] => None
  | c :: cols' =>
      if String.eqb (columnName c) name then Some O
      else S <$> position_of name cols'
  end.

(** A row of a describe result carries a name: its [col_name] is there and
    is truthy (for a string: not empty). *)
Definition has_name (col : gmap string Py.value) : Prop :=
  exists v, col !! "col_name" = Some v /\ Py.truthy v = true.

(** [lit] occurs in [s]. *)
Definition occurs (lit s : string) : Prop :=
  exists pre post : string, s = (pre ++ lit ++ post)%string.

(** Does [lit] occur in [s]? *)
Fixpoint contains (lit s : string) : bool :=
  match Re.strip lit s with
  | Some _ => true
  | None =>
      match s with
      | EmptyString => false
      | String _ s' => contains lit s'
      end
  end.

(** Is every occurrence of [lit] in [s] that starts before position [n]
    followed by the character [c] or by the end of [s]? *)
Fixpoint unmatched_before (lit : string) (c : ascii) (n : nat) (s : string) : bool :=
  match n with
  | O => true
  | S n' =>
      match Re.strip lit s with
      | Some (String b _) => Ascii.eqb b c
      | _ => true
      end
      && match s with
         | EmptyString => true
         | String _ s' => unmatched_before lit c n' s'
         end
  end.

(** Every event a computation adds to the trace satisfies [ok]. *)
Definition emits_only {B A} (ok : Event -> Prop) (m : M B A) : Prop :=
  forall st, exists evs, trace (snd (m st)) = trace st ++ evs /\ Forall ok evs.

(** A computation adds at least one event that satisfies [ok]. *)
Definition emits_some {B A} (ok : Event -> Prop) (m : M B A) : Prop :=
  forall st, exists evs, trace (snd (m st)) = trace st ++ evs /\ Exists ok evs.

(** An event is no stub call, or a call of [fn] with the body of [req]. *)
Definition call_of {R} (fn : rpc R) (req : Req) (e : Event) : Prop :=
  match e with
  | EvCall name r => name = attr fn /\ body r = body req
  | _ => True
  end.

(** An event is no FetchResults call, or one with these parameters. *)
Definition fetch_of (h : TOperationHandle) (o : TFetchOrientation) (n : Z)
    (e : Event) : Prop :=
  match e with
  | EvCall name r => name = "FetchResults" -> body r = FetchResultsBody h o n
  | _ => True
  end.

(** An event is a FetchResults call. *)
Definition is_fetch (e : Event) : Prop :=
  exists r, e = EvCall "FetchResults" r.

(** [s] with its ASCII capitals folded. *)
Fixpoint lower_string (s : string) : string :=
  match s with
  | EmptyString => EmptyString
  | String a s' => String (Re.lower a) (lower_string s')
  end.

(** [lit] occurs in [s] up to the case of ASCII letters. *)
Definition occurs_ci (lit s : string) : Prop :=
  exists pre mid post : string,
    s = (pre ++ mid ++ post)%string /\ lower_string mid = lower_string lit.

(** The text of a partition part made of a key and a value. *)
Definition part_text (kv : string * string) : string :=
  (fst kv ++ "=" ++ snd kv)%string.

(** An event is no ExecuteStatement call, or one that submits [statement]
    with an empty configuration overlay. *)
Definition statement_of (statement : string) (e : Event) : Prop :=
  match e with
  | EvCall name r =>
      name = "ExecuteStatement" -> body r = ExecuteStatementBody statement []
  | _ => True
  end.
(** * Properties *)

(** ** Generic facts about fallible loops and Python built-ins *)

Lemma for_each_Ok_Forall2 {A B} (f : A -> result B) (l : list A) (ys : list B) :
  for_each f l = Ok ys <-> Forall2 (fun x y => f x = Ok y) l ys.
Proof.
  revert ys. induction l as [|x l IH]; intros ys; simpl.
  - split.
    + intros [= <-]. constructor.
    + intros H. inversion H. reflexivity.
  - unfold mbind, result_bind. split.
    + destruct (f x) as [y|e] eqn:Hx; [|discriminate].
      destruct (for_each f l) as [zs|e] eqn:Hl; [|discriminate].
      intros [= <-]. constructor; [exact Hx | apply IH; reflexivity].
    + intros H. inversion H as [|? y ? zs Hx Hl]; subst.
      rewrite Hx. apply IH in Hl. rewrite Hl. reflexivity.
Qed.

Lemma for_each_total {A B} (f : A -> B) (l : list A) :
  for_each (fun x => Ok (f x)) l = Ok (map f l).
Proof.
  induction l as [|x l IH]; simpl; [reflexivity|].
  unfold mbind, result_bind. rewrite IH. reflexivity.
Qed.

Lemma py_index_nat {A} (l : list A) (n : nat) :
  py_index l (Z.of_nat n) =
  match l !! n with Some x => Ok x | None => Raise IndexError end.
Proof.
  unfold py_index. cbv zeta.
  destruct (Z.of_nat n <? 0) eqn:Hneg; [apply Z.ltb_lt in Hneg; lia|].
  rewrite Hneg, Nat2Z.id. reflexivity.
Qed.

Lemma py_index_head {A} (l : list A) :
  py_index l 0 = match l with x :: _ => Ok x | [] => Raise IndexError end.
Proof. change 0 with (Z.of_nat 0). rewrite py_index_nat. destruct l; reflexivity. Qed.

Lemma py_index_last {A} (l : list A) (x : A) :
  py_index (l ++ [x]) (-1) = Ok x.
Proof.
  unfold py_index. cbv zeta. change (-1 <? 0) with true. cbv iota.
  rewrite length_app. simpl length.
  replace (-1 + Z.of_nat (length l + 1)) with (Z.of_nat (length l)) by lia.
  destruct (Z.of_nat (length l) <? 0) eqn:Hneg; [apply Z.ltb_lt in Hneg; lia|].
  rewrite Nat2Z.id, lookup_app_r by lia.
  rewrite Nat.sub_diag. reflexivity.
Qed.

Lemma slice_bound_nonneg (len : nat) (i : Z) :
  0 <= i -> Py.slice_bound len i = Nat.min len (Z.to_nat i).
Proof.
  intros Hi. unfold Py.slice_bound.
  destruct (Z.ltb_spec i 0); [lia|]. cbv zeta.
  destruct (Z.ltb_spec i 0); [lia|].
  destruct (Z.ltb_spec (Z.of_nat len) i); lia.
Qed.

Lemma slice_bound_neg (len : nat) (i : Z) :
  i < 0 -> Py.slice_bound len i = (len - Z.to_nat (- i))%nat.
Proof.
  intros Hi. unfold Py.slice_bound.
  destruct (Z.ltb_spec i 0); [|lia]. cbv zeta.
  destruct (Z.ltb_spec (i + Z.of_nat len) 0); [lia|].
  destruct (Z.ltb_spec (Z.of_nat len) (i + Z.of_nat len)); lia.
Qed.

(** [l[-n:]] keeps the last [n] elements when [n] is positive ... *)
Lemma slice_last_pos {A} (l : list A) (n : Z) :
  0 < n ->
  Py.slice (Some (- n)) None l = drop (length l - Z.to_nat n) l.
Proof.
  intros Hn. unfold Py.slice.
  rewrite slice_bound_neg, Z.opp_involutive by lia.
  apply take_ge. rewrite length_drop. lia.
Qed.

(** ... and the whole list when [n] is zero, since [-0] is [0]. *)
Lemma slice_last_zero {A} (l : list A) :
  Py.slice (Some (- 0)) None l = l.
Proof.
  unfold Py.slice. rewrite slice_bound_nonneg by reflexivity.
  change (Z.to_nat (- 0)) with O. rewrite Nat.min_0_r, Nat.sub_0_r.
  apply firstn_all.
Qed.

(** [l[:-2]] *)
Lemma slice_drop_last_two {A} (l : list A) :
  Py.slice None (Some (-2)) l = take (length l - 2) l.
Proof.
  unfold Py.slice. rewrite slice_bound_neg by reflexivity.
  rewrite Nat.sub_0_r. reflexivity.
Qed.
(** ** Value Decoder *)

Lemma val_first_populated (cv : TColumnValue) :
  HiveServerTColumnValue.val cv = default Py.VNone (first_populated (variants cv)).
Proof.
  destruct cv as [[b|] [y|] [s|] [i|] [l|] [d|] [t|]]; reflexivity.
Qed.

Lemma first_populated_at {A} (l : list (option A)) (i : nat) (a : A) :
  l !! i = Some (Some a) ->
  (forall j, (j < i)%nat -> l !! j = Some None) ->
  first_populated l = Some a.
Proof.
  revert i. induction l as [|o l IH]; intros i Hi Hlt.
  - rewrite lookup_nil in Hi. discriminate.
  - destruct i as [|i].
    + simpl in Hi. injection Hi as ->. reflexivity.
    + specialize (Hlt O ltac:(lia)) as H0. simpl in H0. injection H0 as ->.
      simpl. apply (IH i); [exact Hi|].
      intros j Hj. apply (Hlt (S j)). lia.
Qed.

Lemma first_populated_none {A} (l : list (option A)) :
  Forall (fun o => o = None) l -> first_populated l = None.
Proof. induction 1 as [|o l -> _ IH]; [reflexivity | exact IH]. Qed.

(** C2.  [val] returns the payload of the first populated variant in the
    order boolean, byte, i16, i32, i64, double, string: in particular the
    payload of the only populated variant when exactly one is set; and it
    returns None when no variant is set.  [val] is a total function: it has
    no path that raises. *)
Theorem val_decodes_populated_variant (cv : TColumnValue) :
  (forall i p,
      variants cv !! i = Some (Some p) ->
      (forall j, j <> i -> (j < 7)%nat -> variants cv !! j = Some None) ->
      HiveServerTColumnValue.val cv = p)
  /\ (forall i p,
      variants cv !! i = Some (Some p) ->
      (forall j, (j < i)%nat -> variants cv !! j = Some None) ->
      HiveServerTColumnValue.val cv = p)
  /\ (Forall (fun o => o = None) (variants cv) ->
      HiveServerTColumnValue.val cv = Py.VNone).
Proof.
  assert (Hpref : forall i p,
      variants cv !! i = Some (Some p) ->
      (forall j, (j < i)%nat -> variants cv !! j = Some None) ->
      HiveServerTColumnValue.val cv = p).
  { intros i p Hi Hlt. rewrite val_first_populated.
    rewrite (first_populated_at _ i p Hi Hlt). reflexivity. }
  split; [|split].
  - intros i p Hi Hothers. apply (Hpref i p Hi).
    intros j Hj. apply Hothers; [lia|].
    apply lookup_lt_Some in Hi. simpl in Hi. lia.
  - exact Hpref.
  - intros Hnone. rewrite val_first_populated.
    rewrite (first_populated_none _ Hnone). reflexivity.
Qed.

(** An i32 column holding 7, and a wire value with no variant at all. *)
Lemma val_decodes_populated_variant_witness :
  HiveServerTColumnValue.val
    {| boolVal := None; byteVal := None; i16Val := None;
       i32Val := Some {| value := Some 7 |};
       i64Val := None; doubleVal := None; stringVal := None |} = Py.VInt 7
  /\ HiveServerTColumnValue.val
    {| boolVal := None; byteVal := None; i16Val := None; i32Val := None;
       i64Val := None; doubleVal := None; stringVal := None |} = Py.VNone.
Proof.
  split.
  - apply (proj1 (val_decodes_populated_variant _) 3%nat (Py.VInt 7)).
    + reflexivity.
    + intros j Hne Hlt.
      do 7 (destruct j as [|j]; [first [reflexivity | contradiction]|]). lia.
  - apply (proj2 (proj2 (val_decodes_populated_variant _))).
    repeat constructor.
Defined.

(** ** Row/Schema View *)

Lemma head_filter_enumerate (name : string) (cols : list TColumnDesc) (k : nat) :
  fst <$> head (List.filter
                  (fun '(i, col) => String.eqb (columnName col) name)
                  (zip (seq k (length cols)) cols))
  = Nat.add k <$> position_of name cols.
Proof.
  revert k. induction cols as [|c cols IH]; intros k; simpl.
  - reflexivity.
  - destruct (String.eqb (columnName c) name).
    + simpl. f_equal. lia.
    + rewrite (IH (S k)). destruct (position_of name cols) as [p|]; simpl.
      * f_equal. lia.
      * reflexivity.
Qed.

Lemma _get_col_position_spec (schema : TTableSchema) (name : string) :
  HiveServerTRow._get_col_position schema name =
  match position_of name (columns schema) with
  | Some pos => Ok pos
  | None => Raise IndexError
  end.
Proof.
  unfold HiveServerTRow._get_col_position, HiveServerTRow.enumerate.
  rewrite py_index_head.
  pose proof (head_filter_enumerate name (columns schema) 0) as H.
  destruct (List.filter _ _) as [|[i c] tl]; simpl in *.
  - destruct (position_of name (columns schema)); [discriminate | reflexivity].
  - destruct (position_of name (columns schema)); [|discriminate].
    simpl in H. injection H as ->. reflexivity.
Qed.

Lemma position_of_present (name : string) (cols : list TColumnDesc) :
  name ∈ map columnName cols ->
  exists pos, position_of name cols = Some pos /\ (pos < length cols)%nat.
Proof.
  induction cols as [|c cols IH]; simpl; intros Hin.
  - apply elem_of_nil in Hin. contradiction.
  - destruct (String.eqb (columnName c) name) eqn:Heq.
    + exists O. split; [reflexivity | lia].
    + apply elem_of_cons in Hin as [Hin|Hin].
      * apply String.eqb_neq in Heq. congruence.
      * destruct (IH Hin) as (pos & -> & Hlt).
        exists (S pos). split; [reflexivity | lia].
Qed.

(** C3.  When the row has as many values as the schema has columns and the
    name is one of the schema's column names, [col] does not raise and
    returns the decoded value found at the position of the first column of
    that name. *)
Theorem col_by_name_is_positional_lookup
    (row : TRow) (schema : TTableSchema) (name : string) :
  length (colVals row) = length (columns schema) ->
  name ∈ map columnName (columns schema) ->
  exists pos cv,
    position_of name (columns schema) = Some pos
    /\ colVals row !! pos = Some cv
    /\ HiveServerTRow.col row schema name = Ok (HiveServerTColumnValue.val cv).
Proof.
  intros Hlen Hin.
  destruct (position_of_present _ _ Hin) as (pos & Hpos & Hlt).
  destruct (lookup_lt_is_Some_2 (colVals row) pos ltac:(lia)) as [cv Hcv].
  exists pos, cv. split; [exact Hpos|]. split; [exact Hcv|].
  unfold HiveServerTRow.col.
  rewrite _get_col_position_spec, Hpos. simpl.
  rewrite py_index_nat, Hcv. reflexivity.
Qed.

(** A row of two strings read through a schema that names the second
    column [TABLE_TYPE]. *)
Lemma col_by_name_is_positional_lookup_witness :
  exists pos cv,
    position_of "TABLE_TYPE"
      (columns (Fixture.schema_of_names ["TABLE_NAME"; "TABLE_TYPE"])) = Some pos
    /\ colVals (Fixture.row_of ["t"; "TABLE"]) !! pos = Some cv
    /\ HiveServerTRow.col (Fixture.row_of ["t"; "TABLE"])
         (Fixture.schema_of_names ["TABLE_NAME"; "TABLE_TYPE"]) "TABLE_TYPE"
       = Ok (HiveServerTColumnValue.val cv).
Proof.
  apply col_by_name_is_positional_lookup.
  - reflexivity.
  - simpl. apply elem_of_cons. right. apply elem_of_cons. left. reflexivity.
Defined.

(** ** Result Table *)

(** C4.  [has_more] is true exactly when the fetched page has at least one
    row, whatever the server put in [hasMoreRows], and [startRowOffset] is
    the offset of the page as the server reported it. *)
Theorem has_more_iff_page_nonempty
    (st : TStatus) (more : bool) (page : TRowSet)
    (schema : option TGetResultSetMetadataResp) :
  let resp := {| fetch_status := st; hasMoreRows := more; results := page |} in
  let dt := HiveServerDataTable.__init__ resp schema in
  (HiveServerDataTable.has_more dt = true <-> rows page <> [])
  /\ (forall more',
        HiveServerDataTable.has_more
          (HiveServerDataTable.__init__
             {| fetch_status := st; hasMoreRows := more'; results := page |}
             schema)
        = HiveServerDataTable.has_more dt)
  /\ HiveServerDataTable.startRowOffset dt = startRowOffset page.
Proof.
  simpl. unfold HiveServerTRowSet.is_empty. simpl.
  split; [|split].
  - destruct (rows page) as [|r rs]; simpl; split; congruence.
  - reflexivity.
  - reflexivity.
Qed.

(** ** Catalog Object Model *)

(** C5.  Built from a table listing without rows, the Table constructor
    raises NoSuchObjectException; and whenever it does return a table, the
    listing had a first row and the table is that row. *)
Theorem table_without_rows_is_no_such_object
    (table_results : TRowSet) (table_schema : TTableSchema)
    (desc_results : TRowSet) (desc_schema : TTableSchema) :
  (rows table_results = [] ->
   HiveServerTable.__init__ table_results table_schema desc_results desc_schema
   = Raise NoSuchObjectException)
  /\ (forall t,
        HiveServerTable.__init__ table_results table_schema desc_results desc_schema
        = Ok t ->
        exists row rest,
          rows table_results = row :: rest /\ HiveServerTable.table t = row).
Proof.
  unfold HiveServerTable.__init__. split.
  - intros ->. reflexivity.
  - intros t. destruct (rows table_results) as [|row rest]; [discriminate|].
    intros [= <-]. exists row, rest. split; reflexivity.
Qed.

(** An empty listing, and the listing of the scripted backend. *)
Lemma table_without_rows_is_no_such_object_witness :
  HiveServerTable.__init__ {| startRowOffset := 0; rows := [] |}
    (Fixture.schema_of_names ["TABLE_NAME"])
    {| startRowOffset := 0; rows := [] |}
    (Fixture.schema_of_names ["col_name"; "data_type"; "comment"])
  = Raise NoSuchObjectException
  /\ exists row rest,
       rows {| startRowOffset := 0; rows := [Fixture.row_of ["t"]] |} = row :: rest
       /\ row = Fixture.row_of ["t"].
Proof.
  split.
  - apply (proj1 (table_without_rows_is_no_such_object _ _ _ _)). reflexivity.
  - destruct (proj2 (table_without_rows_is_no_such_object
                       {| startRowOffset := 0; rows := [Fixture.row_of ["t"]] |}
                       (Fixture.schema_of_names ["TABLE_NAME"])
                       {| startRowOffset := 0; rows := [] |}
                       (Fixture.schema_of_names ["col_name"])) _ eq_refl)
      as (row & rest & Hrows & Htable).
    exists row, rest. split; [exact Hrows|]. symmetry. exact Htable.
Defined.

(** ** The columns of a table *)

Lemma row_cols_keys (row : TRow) (schema : TTableSchema) (names : list string)
    (d d' : gmap string Py.value) :
  HiveServerTRowSet.row_cols row schema names d = Ok d' ->
  forall n, n ∈ names \/ is_Some (d !! n) -> is_Some (d' !! n).
Proof.
  revert d. induction names as [|m names IH]; intros d; simpl.
  - intros [= <-] n [Hin|Hd]; [|exact Hd].
    apply elem_of_nil in Hin. contradiction.
  - unfold mbind, result_bind.
    destruct (HiveServerTRow.col row schema m) as [v|e]; [|discriminate].
    intros Hrec n Hn. apply (IH _ Hrec).
    destruct (decide (m = n)) as [->|Hne].
    + right. rewrite lookup_insert_eq. eauto.
    + rewrite lookup_insert_ne by exact Hne.
      destruct Hn as [Hn|Hn]; [|right; exact Hn].
      apply elem_of_cons in Hn as [->|Hn]; [contradiction|left; exact Hn].
Qed.

Lemma rowset_cols_keys (rs : HiveServerTRowSet.t TTableSchema)
    (names : list string) (ds : list (gmap string Py.value)) :
  HiveServerTRowSet.cols rs names = Ok ds ->
  Forall (fun d => forall n, n ∈ names -> is_Some (d !! n)) ds.
Proof.
  unfold HiveServerTRowSet.cols. intros H.
  apply for_each_Ok_Forall2 in H.
  induction H as [|row d rows ds Hrow _ IH]; constructor; [|exact IH].
  intros n Hn. apply (row_cols_keys _ _ _ _ _ Hrow). left. exact Hn.
Qed.

Lemma count_true_acc (l : list bool) (a : Z) :
  fold_left (fun acc (b : bool) => acc + (if b then 1 else 0)) l a
  = a + HiveServerTable.count_true l.
Proof.
  unfold HiveServerTable.count_true. revert a.
  induction l as [|b l IH]; intros a; simpl.
  - lia.
  - rewrite IH, (IH (0 + _)). lia.
Qed.

Lemma count_true_cons (b : bool) (l : list bool) :
  HiveServerTable.count_true (b :: l)
  = (if b then 1 else 0) + HiveServerTable.count_true l.
Proof.
  unfold HiveServerTable.count_true at 1. simpl. apply count_true_acc.
Qed.

Lemma count_true_bounds (l : list bool) :
  0 <= HiveServerTable.count_true l <= Z.of_nat (length l).
Proof.
  induction l as [|b l IH]; [unfold HiveServerTable.count_true; simpl; lia|].
  rewrite count_true_cons. simpl length. destruct b; lia.
Qed.

Lemma count_true_full (l : list bool) :
  HiveServerTable.count_true l = Z.of_nat (length l) <-> Forall (fun b => b = true) l.
Proof.
  induction l as [|b l IH].
  - split; [constructor | reflexivity].
  - rewrite count_true_cons. simpl length.
    pose proof (count_true_bounds l) as Hb. split.
    + intros H. destruct b; [|lia].
      constructor; [reflexivity|]. apply IH. lia.
    + intros H. inversion H as [|? ? -> Hl]; subst. apply IH in Hl. lia.
Qed.

(** The names [cols] tests, once the describe result has been read. *)
Lemma named_flags (cs : list (gmap string Py.value)) :
  Forall (fun d => is_Some (d !! "col_name")) cs ->
  exists flags,
    for_each (fun col => Py.truthy <$> py_getitem col "col_name") cs = Ok flags
    /\ length flags = length cs
    /\ (Forall (fun b => b = true) flags <-> Forall has_name cs).
Proof.
  induction 1 as [|d cs [v Hv] _ (flags & Hflags & Hlen & Hiff)].
  - exists []. repeat split; constructor.
  - exists (Py.truthy v :: flags). simpl.
    replace (py_getitem d "col_name") with (Ok v)
      by (unfold py_getitem; rewrite Hv; reflexivity).
    unfold mbind, result_bind. simpl. rewrite Hflags.
    split; [reflexivity|]. split; [simpl; lia|].
    split; intros Hall; inversion Hall as [|? ? Hhd Htl]; subst;
      (constructor; [|apply Hiff; exact Htl]).
    + exists v. split; assumption.
    + destruct Hhd as (v' & Hv' & Ht). congruence.
Qed.

Lemma cols_spec (t : HiveServerTable.t) (cs : list (gmap string Py.value)) :
  HiveServerTable.describe_cols t = Ok cs ->
  (Forall has_name cs -> HiveServerTable.cols t = Ok cs)
  /\ (~ Forall has_name cs ->
      HiveServerTable.cols t = Ok (take (length cs - 2) cs)).
Proof.
  intros Hdesc.
  assert (Hkeys : Forall (fun d => is_Some (d !! "col_name")) cs).
  { unfold HiveServerTable.describe_cols, HiveServerTTableSchema.cols in Hdesc.
    apply rowset_cols_keys in Hdesc.
    eapply Forall_impl; [exact Hdesc|].
    intros d Hd. apply Hd. apply elem_of_cons. left. reflexivity. }
  destruct (named_flags cs Hkeys) as (flags & Hflags & Hlen & Hiff).
  unfold HiveServerTable.cols. rewrite Hdesc. simpl.
  unfold mbind at 1, result_bind at 1. rewrite Hflags. simpl.
  rewrite <- Hlen.
  destruct (Z.eqb_spec (HiveServerTable.count_true flags) (Z.of_nat (length flags)))
    as [Heq|Hne].
  - apply count_true_full, Hiff in Heq.
    split; [reflexivity | contradiction].
  - split.
    + intros Hall. apply Hiff, count_true_full in Hall. contradiction.
    + intros _. rewrite slice_drop_last_two, Hlen. reflexivity.
Qed.

(** C8, as the code has it.  Once the describe result has been read, [cols]
    returns all of its rows when every row carries a name, and the rows
    without the last two when some row does not: the two trailing rows are
    dropped exactly when not every row has a truthy [col_name]. *)
Theorem cols_drops_last_two_iff_unnamed_row
    (t : HiveServerTable.t) (cs : list (gmap string Py.value)) :
  HiveServerTable.describe_cols t = Ok cs ->
  (Forall has_name cs -> HiveServerTable.cols t = Ok cs)
  /\ (~ Forall has_name cs ->
      HiveServerTable.cols t = Ok (take (length cs - 2) cs)).
Proof. apply cols_spec. Qed.

(** The extended describe of the scripted backend: a column, a blank row
    and the detail row; only the column is left. *)
Lemma cols_drops_last_two_iff_unnamed_row_witness :
  exists cs,
    HiveServerTable.describe_cols
      (Fixture.table_described_by "DESCRIBE EXTENDED t") = Ok cs
    /\ length cs = 3%nat
    /\ HiveServerTable.cols (Fixture.table_described_by "DESCRIBE EXTENDED t")
       = Ok (take 1 cs).
Proof.
  eexists. split; [vm_compute; reflexivity|].
  match goal with |- length ?cs = _ /\ _ => set (page := cs) end.
  split; [reflexivity|].
  change (take 1 page) with (take (length page - 2) page).
  apply (cols_drops_last_two_iff_unnamed_row
           (Fixture.table_described_by "DESCRIBE EXTENDED t") page).
  - vm_compute. reflexivity.
  - intros Hall.
    apply Forall_cons in Hall as [_ Hall].
    apply Forall_cons in Hall as [(v & Hv & Htruthy) _].
    vm_compute in Hv. injection Hv as <-. discriminate Htruthy.
Defined.

(** The describe result of a table whose three rows all carry a name: the
    rows are all returned, none is dropped. *)
Lemma cols_all_named_keeps_last_two :
  exists cs,
    HiveServerTable.describe_cols
      (Fixture.table_described_by "DESCRIBE EXTENDED flat") = Ok cs
    /\ Forall has_name cs
    /\ HiveServerTable.cols (Fixture.table_described_by "DESCRIBE EXTENDED flat")
       = Ok cs
    /\ HiveServerTable.cols (Fixture.table_described_by "DESCRIBE EXTENDED flat")
       <> Ok (take (length cs - 2) cs).
Proof.
  eexists. split; [vm_compute; reflexivity|].
  match goal with |- Forall _ ?cs /\ _ => set (rows3 := cs) end.
  assert (Hall : Forall has_name rows3).
  { repeat constructor; eexists; (split; [vm_compute; reflexivity | reflexivity]). }
  assert (Hcols : HiveServerTable.cols
                    (Fixture.table_described_by "DESCRIBE EXTENDED flat")
                  = Ok rows3).
  { apply (cols_spec _ rows3); [vm_compute; reflexivity | exact Hall]. }
  split; [exact Hall|]. split; [exact Hcols|].
  rewrite Hcols. intros Heq.
  apply (f_equal (fun r => match r with Ok l => length l | Raise _ => O end)) in Heq.
  discriminate Heq.
Qed.

(** ** The storage location of a table *)

Lemma strip_Some (p s r : string) :
  Re.strip p s = Some r <-> s = (p ++ r)%string.
Proof.
  revert s. induction p as [|a p IH]; intros s; simpl.
  - split; [intros [= ->]; reflexivity | intros ->; reflexivity].
  - destruct s as [|b s]; [split; discriminate|].
    destruct (Ascii.eqb_spec a b) as [->|Hne].
    + rewrite IH. split; [intros ->; reflexivity | intros [= ->]; reflexivity].
    + split; [discriminate | intros [= -> _]; contradiction].
Qed.

Lemma contains_occurs (lit s : string) :
  contains lit s = true <-> occurs lit s.
Proof.
  induction s as [|a s IH]; simpl.
  - destruct (Re.strip lit "") as [r|] eqn:Hs.
    + apply strip_Some in Hs. split; [|reflexivity].
      intros _. exists EmptyString, r. exact Hs.
    + split; [discriminate|].
      intros ([|b pre] & post & Heq); [|discriminate].
      apply (proj2 (strip_Some lit _ post)) in Heq. congruence.
  - destruct (Re.strip lit (String a s)) as [r|] eqn:Hs.
    + apply strip_Some in Hs. split; [|reflexivity].
      intros _. exists EmptyString, r. exact Hs.
    + rewrite IH. split.
      * intros (pre & post & ->). exists (String a pre), post. reflexivity.
      * intros ([|b pre] & post & Heq).
        -- apply (proj2 (strip_Some lit _ post)) in Heq. congruence.
        -- simpl in Heq. injection Heq as _ ->. exists pre, post. reflexivity.
Qed.

Lemma unmatched_before_sound (lit : string) (c : ascii) (n : nat) (s : string) :
  unmatched_before lit c n s = true ->
  forall pre post : string,
    s = (pre ++ lit ++ post)%string ->
    (String.length pre < n)%nat ->
    post = EmptyString \/ exists rest, post = String c rest.
Proof.
  revert s. induction n as [|n IH]; intros s Hfree pre post Heq Hlt; [lia|].
  simpl in Hfree. apply andb_prop in Hfree as [Hhere Hlater].
  destruct pre as [|b pre].
  - apply (proj2 (strip_Some lit _ post)) in Heq. rewrite Heq in Hhere.
    destruct post as [|d post]; [left; reflexivity|].
    apply Ascii.eqb_eq in Hhere as ->. right. exists post. reflexivity.
  - simpl in Heq. subst s. simpl in Hlt.
    apply (IH _ Hlater pre post); [reflexivity | lia].
Qed.

Lemma run_not_stops (c : ascii) (v post : string) :
  ~ occurs (String c "") v ->
  Re.run_not c (v ++ String c post) = v.
Proof.
  induction v as [|a v IH]; intros Hfree; simpl.
  - rewrite Ascii.eqb_refl. reflexivity.
  - destruct (Ascii.eqb_spec a c) as [->|Hne].
    + exfalso. apply Hfree. exists EmptyString, v. reflexivity.
    + f_equal. apply IH. intros (pre & post' & ->).
      apply Hfree. exists (String a pre), post'. reflexivity.
Qed.

Lemma search_literal_run_absent (lit : string) (c : ascii) (s : string) :
  ~ occurs lit s -> Re.search_literal_run lit c s = None.
Proof.
  intros Hfree. apply (not_iff_compat (contains_occurs lit s)) in Hfree.
  apply not_true_is_false in Hfree.
  induction s as [|a s IH]; simpl in *; unfold Re.match_literal_run.
  - destruct (Re.strip lit "" ); [discriminate | reflexivity].
  - destruct (Re.strip lit (String a s)); [discriminate|]. apply IH, Hfree.
Qed.

Lemma search_literal_run_first (lit : string) (c : ascii) (pre v post : string) :
  v <> EmptyString ->
  ~ occurs (String c "") v ->
  (forall pre' post' : string,
      (pre ++ lit ++ v ++ String c post)%string = (pre' ++ lit ++ post')%string ->
      (String.length pre' < String.length pre)%nat ->
      post' = EmptyString \/ exists rest, post' = String c rest) ->
  Re.search_literal_run lit c (pre ++ lit ++ v ++ String c post) = Some v.
Proof.
  intros Hv Hc. induction pre as [|a pre IH]; intros Hfirst.
  - assert (Hm : Re.match_literal_run lit c (lit ++ v ++ String c post) = Some v).
    { unfold Re.match_literal_run.
      rewrite (proj2 (strip_Some lit _ (v ++ String c post)) eq_refl).
      rewrite run_not_stops by exact Hc.
      destruct v; [contradiction | reflexivity]. }
    simpl append at 1.
    destruct (lit ++ v ++ String c post)%string; simpl; rewrite Hm; reflexivity.
  - simpl.
    assert (Hm : Re.match_literal_run lit c
                   (String a (pre ++ lit ++ v ++ String c post)) = None).
    { unfold Re.match_literal_run.
      destruct (Re.strip lit _) as [r|] eqn:Hs; [|reflexivity].
      apply (proj1 (strip_Some lit _ r)) in Hs.
      destruct (Hfirst EmptyString r Hs ltac:(simpl; lia)) as [->|[rest ->]].
      - reflexivity.
      - simpl. rewrite Ascii.eqb_refl. reflexivity. }
    rewrite Hm. apply IH. intros pre' post' Heq Hlt.
    apply (Hfirst (String a pre') post').
    + exact (f_equal (String a) Heq).
    + simpl. lia.
Qed.

(** C9.  Given the text of the extended describe: when [location:] does not
    occur in it, [path_location] returns None and does not raise; when
    [location:value,] occurs in it, the value being non-empty and free of
    commas, and no earlier [location:] is followed by anything but a comma
    or the end of the text, [path_location] returns that value: what
    follows [location:] up to the first comma. *)
Theorem path_location_absent_or_captured (t : HiveServerTable.t) (text : string) :
  HiveServerTable.extended_describe t = Ok (Py.VStr text) ->
  (~ occurs "location:" text -> HiveServerTable.path_location t = Ok None)
  /\ (forall pre v post : string,
        text = (pre ++ "location:" ++ v ++ "," ++ post)%string ->
        v <> EmptyString ->
        ~ occurs "," v ->
        (forall pre' post' : string,
            text = (pre' ++ "location:" ++ post')%string ->
            (String.length pre' < String.length pre)%nat ->
            post' = EmptyString \/ exists rest, post' = String "," rest) ->
        HiveServerTable.path_location t = Ok (Some v)).
Proof.
  intros Hdesc. unfold HiveServerTable.path_location. rewrite Hdesc. simpl.
  split.
  - intros Hfree. rewrite search_literal_run_absent by exact Hfree. reflexivity.
  - intros pre v post -> Hv Hc Hfirst.
    change ("," ++ post)%string with (String "," post).
    rewrite search_literal_run_first; [reflexivity | exact Hv | exact Hc | exact Hfirst].
Qed.

(** The table of the scripted backend, whose detail row locates it at
    [hdfs://nn/warehouse/t], and a describe result that ends with the type
    [double]. *)
Lemma path_location_absent_or_captured_witness :
  HiveServerTable.path_location (Fixture.table_described_by "DESCRIBE EXTENDED flat")
  = Ok None
  /\ HiveServerTable.path_location (Fixture.table_described_by "DESCRIBE EXTENDED t")
     = Ok (Some "hdfs://nn/warehouse/t").
Proof.
  split.
  - apply (proj1 (path_location_absent_or_captured
                    (Fixture.table_described_by "DESCRIBE EXTENDED flat")
                    "double" ltac:(vm_compute; reflexivity))).
    intros Hocc. apply contains_occurs in Hocc. discriminate Hocc.
  - apply (proj2 (path_location_absent_or_captured
                    (Fixture.table_described_by "DESCRIBE EXTENDED t")
                    Fixture.detail ltac:(vm_compute; reflexivity))
             "Table(tableName:t, dbName:default, owner:hue, sd:StorageDescriptor(cols:[FieldSchema(name:id, type:int, comment:null)], "
             "hdfs://nn/warehouse/t"
             " inputFormat:TextInputFormat), partitionKeys:[FieldSchema(name:datehour, type:int, comment:null)])").
    + reflexivity.
    + discriminate.
    + intros Hocc. apply contains_occurs in Hocc. discriminate Hocc.
    + intros pre' post' Heq Hlt.
      eapply unmatched_before_sound; [|exact Heq|exact Hlt].
      vm_compute. reflexivity.
Defined.

(** ** Running the client: results and traces *)

Section Runs.
Context {B : Backend}.

Lemma bind_run {A C} (m : M B A) (f : A -> M B C) (st : State B) :
  (m ≫= f) st =
  match m st with
  | (Ok a, st') => f a st'
  | (Raise e, st') => (Raise e, st')
  end.
Proof. reflexivity. Qed.

Lemma bind_Ok_inv {A C} (m : M B A) (f : A -> M B C) (st st' : State B) (c : C) :
  (m ≫= f) st = (Ok c, st') ->
  exists a st1, m st = (Ok a, st1) /\ f a st1 = (Ok c, st').
Proof.
  rewrite bind_run. destruct (m st) as [[a|e] st1]; [|discriminate].
  intros H. exists a, st1. split; [reflexivity | exact H].
Qed.

Lemma lift_Ok_inv {A} (r : result A) (st st' : State B) (a : A) :
  lift r st = (Ok a, st') -> r = Ok a /\ st' = st.
Proof. unfold lift. intros [= -> ->]. split; reflexivity. Qed.

Lemma emits_only_ret {A} (ok : Event -> Prop) (a : A) :
  emits_only ok (mret a : M B A).
Proof. intros st. exists []. rewrite app_nil_r. split; [reflexivity | constructor]. Qed.

Lemma emits_only_lift {A} (ok : Event -> Prop) (r : result A) :
  emits_only ok (lift r : M B A).
Proof. intros st. exists []. rewrite app_nil_r. split; [reflexivity | constructor]. Qed.

Lemma emits_only_bind {A C} (ok : Event -> Prop) (m : M B A) (f : A -> M B C) :
  emits_only ok m -> (forall a, emits_only ok (f a)) -> emits_only ok (m ≫= f).
Proof.
  intros Hm Hf st. rewrite bind_run.
  destruct (Hm st) as (evs & Htr & Hall).
  destruct (m st) as [[a|e] st1]; simpl in Htr.
  - destruct (Hf a st1) as (evs' & Htr' & Hall').
    exists (evs ++ evs'). rewrite Htr', Htr, app_assoc.
    split; [reflexivity | apply Forall_app; split; assumption].
  - exists evs. split; assumption.
Qed.

Lemma emits_only_weaken {A} (ok ok' : Event -> Prop) (m : M B A) :
  (forall e, ok e -> ok' e) -> emits_only ok m -> emits_only ok' m.
Proof.
  intros Himp Hm st. destruct (Hm st) as (evs & Htr & Hall).
  exists evs. split; [exact Htr | eapply Forall_impl; eassumption].
Qed.

Lemma emits_some_bind {A C} (ok : Event -> Prop) (m : M B A) (f : A -> M B C) :
  emits_some ok m -> (forall a, emits_only (fun _ => True) (f a)) ->
  emits_some ok (m ≫= f).
Proof.
  intros Hm Hf st. rewrite bind_run.
  destruct (Hm st) as (evs & Htr & Hex).
  destruct (m st) as [[a|e] st1]; simpl in Htr.
  - destruct (Hf a st1) as (evs' & Htr' & _).
    exists (evs ++ evs'). rewrite Htr', Htr, app_assoc.
    split; [reflexivity | apply Exists_app; left; exact Hex].
  - exists evs. split; assumption.
Qed.

Lemma emits_some_after {A C} (ok : Event -> Prop) (m : M B A) (f : A -> M B C) :
  (forall st, exists a st1 evs,
      m st = (Ok a, st1) /\ trace st1 = trace st ++ evs) ->
  (forall a, emits_some ok (f a)) ->
  emits_some ok (m ≫= f).
Proof.
  intros Hm Hf st. rewrite bind_run.
  destruct (Hm st) as (a & st1 & evs & -> & Htr).
  destruct (Hf a st1) as (evs' & Htr' & Hex).
  exists (evs ++ evs'). rewrite Htr', Htr, app_assoc.
  split; [reflexivity | apply Exists_app; right; exact Hex].
Qed.

Variable self : HiveServerClient.t.

Lemma open_session_run (user : models.User) (st : State B) :
  exists session w,
    HiveServerClient.open_session self user st
    = (Ok session,
       {| world := w;
          trace := trace st
                   ++ [EvOpenSession {| username := models.username user;
                                        configuration := [] |};
                       EvCreateSession session] |}).
Proof.
  unfold HiveServerClient.open_session. rewrite bind_run.
  unfold HiveServerClient.client_OpenSession.
  destruct (OpenSession B _ (world st)) as [res w] eqn:Hopen.
  destruct (encode_handle B _ _) as [encoded_status encoded_guid].
  unfold HiveServerClient.objects_create, emit. simpl.
  eexists _, _. rewrite <- app_assoc. reflexivity.
Qed.

Lemma call_send_run {R} (fn : rpc R) (req : Req) (st : State B) :
  exists pre req1 res1 w,
    HiveServerClient.call_send self fn req st
    = (Ok (req1, res1),
       {| world := w; trace := trace st ++ pre ++ [EvCall (attr fn) req1] |})
    /\ Forall (fun e => is_call e = false) pre
    /\ body req1 = body req.
Proof.
  unfold HiveServerClient.call_send. rewrite bind_run.
  unfold HiveServerClient.objects_get_session at 1.
  destruct (get_session B _ _ (world st)) as [session|].
  - rewrite bind_run. unfold mret at 1, M_ret at 1. rewrite bind_run.
    unfold HiveServerClient.client_invoke, emit. simpl.
    destruct (invoke B fn _ (world st)) as [res w].
    eexists [_], _, res, w. simpl. rewrite <- app_assoc.
    split; [reflexivity|]. split; [repeat constructor|].
    destruct (sessionHandle req) as [[h|]|]; reflexivity.
  - rewrite bind_run.
    destruct (open_session_run (HiveServerClient.user self)
                (emit (EvGetSession (HiveServerClient.user self)
                         (server_name (HiveServerClient.query_server self))) st))
      as (session & w & ->).
    rewrite bind_run.
    unfold HiveServerClient.client_invoke, emit. simpl.
    destruct (invoke B fn _ w) as [res w'].
    eexists [_; _; _], _, res, w'. simpl. rewrite <- !app_assoc.
    split; [reflexivity|]. split; [repeat constructor|].
    destruct (sessionHandle req) as [[h|]|]; reflexivity.
Qed.

Lemma call_check_trace {R} (fn : rpc R) (status : option TStatusCode)
    (sent : Req * R) (st : State B) :
  snd (HiveServerClient.call_check fn status sent st) = st.
Proof.
  destruct sent as [req res]. unfold HiveServerClient.call_check.
  destruct status; [destruct (negb _)|]; reflexivity.
Qed.

(** What [call] adds to the trace: no stub call before [fn] is sent, then
    [fn] with the body of [req], then at most a session renewal and [fn]
    once more with the same body. *)
Lemma call_trace {R} (fn : rpc R) (req : Req) (status : option TStatusCode)
    (st : State B) :
  exists pre req1 post,
    trace (snd (HiveServerClient.call self fn req status st))
    = trace st ++ pre ++ EvCall (attr fn) req1 :: post
    /\ Forall (fun e => is_call e = false) pre
    /\ body req1 = body req
    /\ Forall (call_of fn req) post.
Proof.
  unfold HiveServerClient.call. rewrite bind_run.
  destruct (call_send_run fn req st) as (pre & req1 & res1 & w & -> & Hpre & Hbody).
  rewrite bind_run. unfold HiveServerClient.call_renew.
  destruct (HiveServerClient.stale_session _).
  - rewrite bind_run.
    destruct (open_session_run (HiveServerClient.user self)
                {| world := w; trace := trace st ++ pre ++ [EvCall (attr fn) req1] |})
      as (session & w1 & ->).
    rewrite bind_run.
    unfold HiveServerClient.client_invoke, emit. simpl.
    destruct (invoke B fn _ w1) as [res2 w2].
    unfold mret at 1, M_ret at 1. rewrite call_check_trace. simpl.
    exists pre, req1. eexists. rewrite <- !app_assoc. simpl.
    split; [reflexivity|]. split; [exact Hpre|]. split; [exact Hbody|].
    repeat constructor. exact Hbody.
  - unfold mret at 1, M_ret at 1. rewrite call_check_trace. simpl.
    exists pre, req1, [].
    split; [reflexivity|]. split; [exact Hpre|]. split; [exact Hbody|].
    constructor.
Qed.

Lemma call_emits_only {R} (fn : rpc R) (req : Req) (status : option TStatusCode) :
  emits_only (B := B) (call_of fn req) (HiveServerClient.call self fn req status).
Proof.
  intros st.
  destruct (call_trace fn req status st) as (pre & req1 & post & -> & Hpre & Hbody & Hpost).
  eexists. split; [reflexivity|].
  apply Forall_app. split.
  - eapply Forall_impl; [exact Hpre|].
    intros [] He; simpl in *; try exact I. discriminate He.
  - constructor; [split; [reflexivity | exact Hbody] | exact Hpost].
Qed.

Lemma call_emits_some {R} (fn : rpc R) (req : Req) (status : option TStatusCode) :
  emits_some (B := B) (fun e => exists r, e = EvCall (attr fn) r /\ body r = body req)
             (HiveServerClient.call self fn req status).
Proof.
  intros st.
  destruct (call_trace fn req status st) as (pre & req1 & post & -> & _ & Hbody & _).
  eexists. split; [reflexivity|].
  apply Exists_app. right. constructor. exists req1. split; [reflexivity | exact Hbody].
Qed.

(** C1, as the code has it.  When the first response is an error whose
    message matches the stale-session pattern, [call] opens one session,
    binds the request to its handle, sends the same method once more and
    does nothing else: the response to the second request is returned when
    it has an accepted status or when the status check is off ([status] is
    None), and QueryServerException is raised otherwise, also when the second
    response is a stale-session error again. *)
Theorem call_renews_stale_session_once {R} (fn : rpc R) (req : Req)
    (check : option TStatusCode) (st : State B)
    (req1 : Req) (res1 : R) (st1 : State B) :
  HiveServerClient.call_send self fn req st = (Ok (req1, res1), st1) ->
  HiveServerClient.stale_session (status fn res1) = true ->
  exists session st2 res2 w3,
    let req2 := HiveServerClient.bind_session (B := B) req1 session in
    HiveServerClient.open_session self (HiveServerClient.user self) st1
    = (Ok session, st2)
    /\ trace st2
       = trace st1
         ++ [EvOpenSession
               {| username := models.username (HiveServerClient.user self);
                  configuration := [] |};
             EvCreateSession session]
    /\ sessionHandle req2 = Some (Some (get_handle B session))
    /\ body req2 = body req1
    /\ invoke B fn req2 (world st2) = (res2, w3)
    /\ HiveServerClient.call self fn req check st
       = (match check with
          | Some _ =>
              if HiveServerClient.accepted (statusCode (status fn res2))
              then Ok res2
              else Raise (QueryServerException req2 (status fn res2))
          | None => Ok res2
          end,
          {| world := w3; trace := trace st2 ++ [EvCall (attr fn) req2] |}).
Proof.
  intros Hsend Hstale.
  destruct (open_session_run (HiveServerClient.user self) st1)
    as (session & w & Hopen).
  destruct (invoke B fn (HiveServerClient.bind_session (B := B) req1 session) w)
    as [res2 w3] eqn:Hinvoke.
  eexists session, _, res2, w3. cbv zeta.
  split; [exact Hopen|]. split; [reflexivity|].
  split; [reflexivity|]. split; [reflexivity|].
  split; [exact Hinvoke|].
  unfold HiveServerClient.call. rewrite bind_run, Hsend, bind_run.
  unfold HiveServerClient.call_renew. rewrite Hstale, bind_run, Hopen, bind_run.
  unfold HiveServerClient.client_invoke, emit. simpl. rewrite Hinvoke.
  unfold mret at 1, M_ret at 1. unfold HiveServerClient.call_check.
  destruct check as [code|]; [|reflexivity].
  destruct (HiveServerClient.accepted _); reflexivity.
Qed.

End Runs.

(** A stored session the server no longer knows: the first answer is
    [Invalid SessionHandle], and so is the answer to the retry. *)
Lemma call_renews_stale_session_once_witness :
  exists req2 st2,
    HiveServerClient.call (Fixture.client "beeswax") GetSchemas TGetSchemasReq
      (Some SUCCESS_STATUS)
      (Fixture.start "TABLE_SCHEMA"
         [Fixture.error_status "Invalid SessionHandle: gone";
          Fixture.error_status "invalid session"]
         (Some Fixture.session0))
    = (Raise (QueryServerException req2 (Fixture.error_status "invalid session")),
       st2)
    /\ sessionHandle req2 = Some (Some (Fixture.session_handle 0))
    /\ List.filter is_call (trace st2)
       = [EvCall "GetSchemas"
            {| sessionHandle :=
                 Some (Some {| sessionId := {| guid := "old"; secret := "old" |} |});
               body := GetSchemasBody |};
          EvCall "GetSchemas" req2].
Proof.
  edestruct (call_renews_stale_session_once (B := Fixture.backend "TABLE_SCHEMA")
               (Fixture.client "beeswax") GetSchemas TGetSchemasReq
               (Some SUCCESS_STATUS)
               (Fixture.start "TABLE_SCHEMA"
                  [Fixture.error_status "Invalid SessionHandle: gone";
                   Fixture.error_status "invalid session"]
                  (Some Fixture.session0)))
    as (session & st2 & res2 & w3 & Hopen & _ & _ & _ & Hinvoke & Hcall).
  - vm_compute. reflexivity.
  - vm_compute. reflexivity.
  - vm_compute in Hopen. injection Hopen as <- <-.
    vm_compute in Hinvoke. injection Hinvoke as <- <-.
    rewrite Hcall. eexists _, _. split; [reflexivity|].
    split; vm_compute; reflexivity.
Defined.

(** With the status check off, the failed answer to the retry is returned:
    no exception is raised. *)
Lemma call_unchecked_returns_failed_retry :
  let st := Fixture.start "TABLE_SCHEMA"
              [Fixture.error_status "Invalid SessionHandle: gone";
               Fixture.error_status "invalid session"]
              (Some Fixture.session0) in
  (exists req1 res1 st1,
      HiveServerClient.call_send (Fixture.client "beeswax") GetSchemas
        TGetSchemasReq st = (Ok (req1, res1), st1)
      /\ HiveServerClient.stale_session (op_status res1) = true)
  /\ exists res2,
      fst (HiveServerClient.call (Fixture.client "beeswax") GetSchemas
             TGetSchemasReq None st) = Ok res2
      /\ HiveServerClient.accepted (statusCode (op_status res2)) = false
      /\ HiveServerClient.stale_session (op_status res2) = true.
Proof.
  cbv zeta. split.
  - eexists _, _, _. split; vm_compute; reflexivity.
  - eexists. split; [vm_compute; reflexivity|]. split; vm_compute; reflexivity.
Qed.

(** ** Fetching pages *)

Section Fetch.
Context {B : Backend}.

Lemma emits_any {A} (ok : Event -> Prop) (m : M B A) :
  emits_only ok m -> emits_only (fun _ => True) m.
Proof. apply emits_only_weaken. intros; exact I. Qed.

Lemma fetch_result_emits_only (self : HiveServerClient.t)
    (h : TOperationHandle) (o : TFetchOrientation) (n : Z) :
  emits_only (B := B) (fetch_of h o n) (HiveServerClient.fetch_result self h o n).
Proof.
  unfold HiveServerClient.fetch_result.
  apply emits_only_bind.
  - eapply emits_only_weaken; [|apply call_emits_only].
    intros [] He; simpl in *; try exact I. intros _. apply He.
  - intros res. apply emits_only_bind; [|intros; apply emits_only_ret].
    destruct (hasResultSet h); [|apply emits_only_ret].
    apply emits_only_bind; [|intros; apply emits_only_ret].
    eapply emits_only_weaken; [|apply call_emits_only].
    intros [] He; simpl in *; try exact I.
    destruct He as [-> _]. discriminate.
Qed.

Lemma fetch_result_emits_some (self : HiveServerClient.t)
    (h : TOperationHandle) (o : TFetchOrientation) (n : Z) :
  emits_some (B := B) is_fetch (HiveServerClient.fetch_result self h o n).
Proof.
  unfold HiveServerClient.fetch_result.
  apply emits_some_bind.
  - intros st.
    destruct (call_emits_some (B := B) self FetchResults
                (TFetchResultsReq h o n) (Some SUCCESS_STATUS) st)
      as (evs & Htr & Hex).
    exists evs. split; [exact Htr|].
    eapply Exists_impl; [exact Hex|].
    intros e (r & -> & _). exists r. reflexivity.
  - intros res. apply emits_only_bind; [|intros; apply emits_only_ret].
    destruct (hasResultSet h); [|apply emits_only_ret].
    apply emits_only_bind; [|intros; apply emits_only_ret].
    eapply emits_any, call_emits_only.
Qed.

Lemma fetch_data_trace (self : HiveServerClient.t)
    (h : TOperationHandle) (o : TFetchOrientation) (n : Z) (st : State B) :
  exists evs,
    trace (snd (HiveServerClient.fetch_data self h o n st)) = trace st ++ evs
    /\ Forall (fetch_of h o n) evs
    /\ Exists is_fetch evs.
Proof.
  assert (Honly : emits_only (B := B) (fetch_of h o n)
                    (HiveServerClient.fetch_data self h o n)).
  { apply emits_only_bind; [apply fetch_result_emits_only|].
    intros [results schema]. apply emits_only_ret. }
  assert (Hsome : emits_some (B := B) is_fetch
                    (HiveServerClient.fetch_data self h o n)).
  { apply emits_some_bind; [apply fetch_result_emits_some|].
    intros [results schema]. apply emits_only_ret. }
  destruct (Honly st) as (evs & Htr & Hall).
  destruct (Hsome st) as (evs' & Htr' & Hex).
  rewrite Htr in Htr'. apply app_inv_head in Htr'. subst evs'.
  exists evs. repeat split; assumption.
Qed.

(** C10.  [fetch] sends FetchResults at least once, and every FetchResults
    request it sends is for the handle's operation, asks for 10000 rows when
    [max_rows] is None (for [max_rows] otherwise), and has the orientation
    FETCH_NEXT on an "impala" server whatever [start_over] is, and on any
    other server FETCH_FIRST when [start_over] is true and FETCH_NEXT when it
    is false. *)
Theorem fetch_request_parameters (self : HiveServerClientCompatible.t)
    (handle : models.HiveServerQueryHandle) (start_over : bool)
    (max_rows : option Z) (st : State B) :
  exists evs,
    trace (snd (HiveServerClientCompatible.fetch self handle start_over max_rows st))
    = trace st ++ evs
    /\ (exists r, EvCall "FetchResults" r ∈ evs)
    /\ (forall r,
          EvCall "FetchResults" r ∈ evs ->
          exists o n,
            body r = FetchResultsBody (get_rpc_handle B handle) o n
            /\ (max_rows = None -> n = 10000)
            /\ (forall k, max_rows = Some k -> n = k)
            /\ (server_name (HiveServerClientCompatible.query_server self) = "impala" ->
                o = FETCH_NEXT)
            /\ (server_name (HiveServerClientCompatible.query_server self) <> "impala" ->
                start_over = true -> o = FETCH_FIRST)
            /\ (server_name (HiveServerClientCompatible.query_server self) <> "impala" ->
                start_over = false -> o = FETCH_NEXT)).
Proof.
  unfold HiveServerClientCompatible.fetch.
  set (n := match max_rows with None => 10000 | Some k => k end).
  set (o := if (if String.eqb _ "impala" then false else start_over)
            then FETCH_FIRST else FETCH_NEXT).
  rewrite bind_run.
  destruct (fetch_data_trace (HiveServerClientCompatible._client self)
              (get_rpc_handle B handle) o n st) as (evs & Htr & Hall & Hex).
  exists evs. split.
  { destruct (HiveServerClient.fetch_data _ _ _ _ st) as [[dt|e] st']; exact Htr. }
  split.
  { apply Exists_exists in Hex as (e & Hin & r & ->). exists r. exact Hin. }
  intros r Hin.
  rewrite Forall_forall in Hall. specialize (Hall _ Hin eq_refl).
  exists o, n. split; [exact Hall|].
  subst o n. repeat split.
  - intros ->. reflexivity.
  - intros k ->. reflexivity.
  - intros ->. reflexivity.
  - intros Hne ->. apply String.eqb_neq in Hne. rewrite Hne. reflexivity.
  - intros Hne ->. destruct (String.eqb _ _); reflexivity.
Qed.

End Fetch.

(** ** Listing databases *)

Lemma rowset_cols_single (rs : HiveServerTRowSet.t TTableSchema) (col : string)
    (ds : list (gmap string Py.value)) :
  HiveServerTRowSet.cols rs [col] = Ok ds ->
  exists vs,
    Forall2 (fun row v => HiveServerTRow.col row (HiveServerTRowSet.schema rs) col = Ok v)
            (HiveServerTRowSet.rows rs) vs
    /\ ds = map (fun v => {[col := v]}) vs
    /\ for_each (fun table => py_getitem table col) ds = Ok vs.
Proof.
  unfold HiveServerTRowSet.cols. intros H. apply for_each_Ok_Forall2 in H.
  induction H as [|row d rows ds Hrow _ (vs & Hvs & -> & Hget)].
  - exists []. repeat split; constructor.
  - simpl in Hrow. unfold mbind, result_bind in Hrow.
    destruct (HiveServerTRow.col row _ col) as [v|e] eqn:Hcol; [|discriminate].
    rewrite insert_empty in Hrow. injection Hrow as <-.
    exists (v :: vs). split; [constructor; assumption|].
    split; [reflexivity|].
    cbn [map for_each].
    replace (py_getitem ({[col := v]} : gmap string Py.value) col) with (Ok v)
      by (unfold py_getitem; rewrite lookup_singleton_eq; reflexivity).
    unfold mbind, result_bind.
    change (for_each (fun table => py_getitem table col)
              (map (fun v0 => {[col := v0]}) vs)) with
      (for_each (fun table => py_getitem table col)
              (map (fun v0 => ({[col := v0]} : gmap string Py.value)) vs)).
    rewrite Hget. reflexivity.
Qed.

Lemma for_each_ext {A C} (f g : A -> result C) (l : list A) :
  (forall x, f x = g x) -> for_each f l = for_each g l.
Proof.
  intros Hext. induction l as [|x l IH]; simpl; [reflexivity|].
  rewrite Hext, IH. reflexivity.
Qed.

(** Reading back from each dict the key it was built with gives the values
    the dicts were built from, and the same exception when building fails. *)
Lemma for_each_singleton_getitem {A} (f : A -> result Py.value) (col : string)
    (l : list A) :
  (for_each (fun x => v ← f x; Ok ({[col := v]} : gmap string Py.value)) l
     ≫= for_each (fun table => py_getitem table col))
  = for_each f l.
Proof.
  induction l as [|x l IH]; simpl; [reflexivity|].
  unfold mbind, result_bind in *.
  destruct (f x) as [v|e]; [|reflexivity].
  destruct (for_each (fun x0 => _) l) as [ds|e]; simpl in *.
  - replace (py_getitem ({[col := v]} : gmap string Py.value) col) with (Ok v)
      by (unfold py_getitem; rewrite lookup_singleton_eq; reflexivity).
    rewrite IH. reflexivity.
  - rewrite <- IH. reflexivity.
Qed.

Lemma rowset_cols_one (page : TRowSet) (sch : TTableSchema) (col : string) :
  HiveServerTRowSet.cols (HiveServerTRowSet.__init__ page sch) [col]
  = for_each (fun row => v ← HiveServerTRow.col row sch col;
                         Ok ({[col := v]} : gmap string Py.value))
             (rows page).
Proof.
  unfold HiveServerTRowSet.cols. simpl. apply for_each_ext. intros row.
  unfold mbind, result_bind.
  destruct (HiveServerTRow.col row sch col) as [v|e]; [|reflexivity].
  rewrite insert_empty. reflexivity.
Qed.

(** C7.  The column [get_databases] selects is TABLE_SCHEM on an "impala"
    server and TABLE_SCHEMA on any other.  Once GetSchemas has been answered
    and its result fetched together with its schema, the client returns, for
    each fetched row in order, the dict that maps the selected column name
    to the row's value in that column of the fetched schema, and the facade
    returns these values themselves; both raise what the lookup of the
    column raises on the first row that lacks it.  When the operation came
    without a schema both raise AttributeError. *)
Theorem get_databases_projects_schema_column {B : Backend}
    (client : HiveServerClient.t) (st : State B) :
  exists col,
    (server_name (HiveServerClient.query_server client) = "impala" ->
     col = "TABLE_SCHEM")
    /\ (server_name (HiveServerClient.query_server client) <> "impala" ->
        col = "TABLE_SCHEMA")
    /\ forall res st1 page meta st2,
        HiveServerClient.call client GetSchemas TGetSchemasReq
          (Some SUCCESS_STATUS) st = (Ok res, st1) ->
        HiveServerClient.fetch_result client (operationHandle res) FETCH_NEXT 100 st1
        = (Ok (page, meta), st2) ->
        match meta with
        | Some meta =>
            HiveServerClient.get_databases client st
            = (for_each (fun row =>
                           v ← HiveServerTRow.col row (schema meta) col;
                           Ok ({[col := v]} : gmap string Py.value))
                        (rows (results page)), st2)
            /\ HiveServerClientCompatible.get_databases
                 (HiveServerClientCompatible.__init__ client) st
               = (for_each (fun row => HiveServerTRow.col row (schema meta) col)
                           (rows (results page)), st2)
        | None =>
            HiveServerClient.get_databases client st = (Raise AttributeError, st2)
            /\ HiveServerClientCompatible.get_databases
                 (HiveServerClientCompatible.__init__ client) st
               = (Raise AttributeError, st2)
        end.
Proof.
  set (col := if String.eqb (server_name (HiveServerClient.query_server client)) "impala"
              then "TABLE_SCHEM" else "TABLE_SCHEMA").
  exists col. split; [|split].
  - intros Himp. subst col. rewrite Himp. reflexivity.
  - intros Hne. subst col. apply String.eqb_neq in Hne. rewrite Hne. reflexivity.
  - intros res st1 page meta st2 Hcall Hfetch.
    assert (Hclient :
      HiveServerClient.get_databases client st
      = (match meta with
         | Some meta =>
             for_each (fun row =>
                         v ← HiveServerTRow.col row (schema meta) col;
                         Ok ({[col := v]} : gmap string Py.value))
                      (rows (results page))
         | None => Raise AttributeError
         end, st2)).
    { unfold HiveServerClient.get_databases.
      rewrite bind_run, Hcall, bind_run, Hfetch. fold col.
      destruct meta as [meta|]; simpl; [|reflexivity].
      rewrite bind_run. unfold lift at 1. simpl.
      unfold lift. rewrite rowset_cols_one. reflexivity. }
    assert (Hfacade :
      HiveServerClientCompatible.get_databases
        (HiveServerClientCompatible.__init__ client) st
      = (match meta with
         | Some meta =>
             for_each (fun row => HiveServerTRow.col row (schema meta) col)
                      (rows (results page))
         | None => Raise AttributeError
         end, st2)).
    { unfold HiveServerClientCompatible.get_databases,
        HiveServerClientCompatible.__init__.
      cbn [HiveServerClientCompatible._client HiveServerClientCompatible.query_server].
      rewrite bind_run, Hclient. fold col.
      destruct meta as [meta|]; [|reflexivity].
      pose proof (for_each_singleton_getitem
                    (fun row => HiveServerTRow.col row (schema meta) col) col
                    (rows (results page))) as Hread.
      unfold mbind at 1, result_bind at 1 in Hread.
      destruct (for_each (fun row => _) (rows (results page))) as [ds|e] eqn:Hds.
      - unfold lift. rewrite Hread. reflexivity.
      - rewrite <- Hread. reflexivity. }
    destruct meta as [meta|]; split; assumption.
Qed.

(** The schema listing of the scripted backend, asked as an "impala" server
    whose catalog names the column TABLE_SCHEM: the facade returns the two
    databases of the listing. *)
Lemma get_databases_projects_schema_column_witness :
  exists st2,
    HiveServerClientCompatible.get_databases
      (HiveServerClientCompatible.__init__ (Fixture.client "impala"))
      (Fixture.start "TABLE_SCHEM" [] None)
    = (Ok [Py.VStr "default"; Py.VStr "sales"], st2).
Proof.
  destruct (get_databases_projects_schema_column (Fixture.client "impala")
              (Fixture.start "TABLE_SCHEM" [] None))
    as (col & Himpala & _ & Hruns).
  specialize (Himpala eq_refl). subst col.
  eassert (Hcall : HiveServerClient.call (Fixture.client "impala") GetSchemas
                     TGetSchemasReq (Some SUCCESS_STATUS)
                     (Fixture.start "TABLE_SCHEM" [] None) = (Ok _, _))
    by (vm_compute; reflexivity).
  match type of Hcall with
  | _ = (Ok ?res, ?st1) =>
      eassert (Hfetch : HiveServerClient.fetch_result (Fixture.client "impala")
                          (operationHandle res) FETCH_NEXT 100 st1
                        = (Ok (_, Some _), _))
        by (vm_compute; reflexivity)
  end.
  destruct (Hruns _ _ _ _ _ Hcall Hfetch) as [_ Hfacade].
  eexists. rewrite Hfacade. reflexivity.
Defined.

Example get_databases_impala :
  fst (HiveServerClientCompatible.get_databases
         (HiveServerClientCompatible.__init__ (Fixture.client "impala"))
         (Fixture.start "TABLE_SCHEM" [] None))
  = Ok [Py.VStr "default"; Py.VStr "sales"].
Proof. vm_compute. reflexivity. Qed.

Example get_databases_hive :
  fst (HiveServerClientCompatible.get_databases
         (HiveServerClientCompatible.__init__ (Fixture.client "beeswax"))
         (Fixture.start "TABLE_SCHEMA" [] None))
  = Ok [Py.VStr "default"; Py.VStr "sales"].
Proof. vm_compute. reflexivity. Qed.

(** ** Listing partitions *)

(** Whatever [max_parts] is, the partitions are parsed in the same way and
    the result is the slice [[-max_parts:]] of the parsed list. *)
Lemma get_partitions_slice {B : Backend} (client : HiveServerClient.t)
    (database table_name : string) (max_parts : Z) (st st' : State B)
    (ps : list PartitionValueCompatible.t) :
  HiveServerClient.get_partitions client database table_name max_parts st
  = (Ok ps, st') ->
  exists parsed,
    ps = Py.slice (Some (- max_parts)) None parsed
    /\ forall n,
        HiveServerClient.get_partitions client database table_name n st
        = (Ok (Py.slice (Some (- n)) None parsed), st').
Proof.
  unfold HiveServerClient.get_partitions. intros Hrun.
  apply bind_Ok_inv in Hrun as (table & st1 & Htable & Hrun).
  apply bind_Ok_inv in Hrun as ([] & st2 & Hset & Hrun).
  apply bind_Ok_inv in Hrun as (partitionTable & st3 & Hquery & Hrun).
  apply bind_Ok_inv in Hrun as (parsed & st4 & Hparse & Hrun).
  injection Hrun as <- <-.
  exists parsed. split; [reflexivity|].
  intros n.
  rewrite bind_run, Htable, bind_run, Hset, bind_run, Hquery, bind_run, Hparse.
  reflexivity.
Qed.

(** For a positive [max_parts] the result is the last [max_parts] parsed
    partitions, in their order (all of them when there are fewer). *)
Lemma get_partitions_keeps_last {B : Backend} (client : HiveServerClient.t)
    (database table_name : string) (max_parts : Z) (st st' : State B)
    (ps : list PartitionValueCompatible.t) :
  0 < max_parts ->
  HiveServerClient.get_partitions client database table_name max_parts st
  = (Ok ps, st') ->
  exists parsed,
    ps = drop (length parsed - Z.to_nat max_parts) parsed
    /\ (length ps <= Z.to_nat max_parts)%nat.
Proof.
  intros Hpos Hrun.
  apply get_partitions_slice in Hrun as (parsed & -> & _).
  exists parsed. rewrite slice_last_pos by exact Hpos.
  split; [reflexivity|]. rewrite length_drop. lia.
Qed.

(** With [max_parts] zero the slice is [[-0:]], the whole parsed list: every
    positive [max_parts] returns a suffix of what zero returns. *)
Lemma get_partitions_zero_is_all {B : Backend} (client : HiveServerClient.t)
    (database table_name : string) (n : Z) (st st' : State B)
    (ps : list PartitionValueCompatible.t) :
  0 < n ->
  HiveServerClient.get_partitions client database table_name 0 st = (Ok ps, st') ->
  HiveServerClient.get_partitions client database table_name n st
  = (Ok (drop (length ps - Z.to_nat n) ps), st').
Proof.
  intros Hpos Hrun.
  destruct (get_partitions_slice _ _ _ _ _ _ _ Hrun) as (parsed & Hps & Hany).
  rewrite slice_last_zero in Hps. subst parsed.
  rewrite (Hany n), slice_last_pos by exact Hpos. reflexivity.
Qed.

(** Five partitions on the scripted backend, [max_parts] 2: the last two. *)
Example get_partitions_last_two :
  fst (HiveServerClient.get_partitions (Fixture.client "beeswax") "default" "t" 2
         (Fixture.start "TABLE_SCHEMA" [] None))
  = Ok [ {| PartitionValueCompatible.values := ["4"];
            PartitionValueCompatible.sd_location := "hdfs://nn/warehouse/t/datehour=4" |};
         {| PartitionValueCompatible.values := ["5"];
            PartitionValueCompatible.sd_location := "hdfs://nn/warehouse/t/datehour=5" |} ].
Proof. vm_compute. reflexivity. Qed.

(** C6.  The code at [max_parts] 0 with five parsed partitions: all five
    are returned, where "at most the last [max_parts]" allows none. *)
Theorem get_partitions_zero_returns_all :
  exists ps,
    fst (HiveServerClient.get_partitions (Fixture.client "beeswax") "default" "t" 0
           (Fixture.start "TABLE_SCHEMA" [] None)) = Ok ps
    /\ map PartitionValueCompatible.values ps = [["1"]; ["2"]; ["3"]; ["4"]; ["5"]]
    /\ (0 < length ps)%nat.
Proof.
  eexists. split; [vm_compute; reflexivity|].
  split; [reflexivity | simpl; lia].
Qed.

(** ** More about [call] *)

Section CallFacts.
Context {B : Backend} (self : HiveServerClient.t).

Lemma call_checked_spec {R} (fn : rpc R) (req : Req) (code : TStatusCode)
    (st : State B) :
  match fst (HiveServerClient.call self fn req (Some code) st) with
  | Ok res => HiveServerClient.accepted (statusCode (status fn res)) = true
  | Raise (QueryServerException _ res_status) =>
      HiveServerClient.accepted (statusCode res_status) = false
  | Raise _ => False
  end.
Proof.
  unfold HiveServerClient.call. rewrite bind_run.
  destruct (call_send_run self fn req st) as (pre & req1 & res1 & w & -> & _ & _).
  rewrite bind_run. unfold HiveServerClient.call_renew.
  assert (Hcheck : forall sent (st1 : State B),
             match fst (HiveServerClient.call_check fn (Some code) sent st1) with
             | Ok res => HiveServerClient.accepted (statusCode (status fn res)) = true
             | Raise (QueryServerException _ res_status) =>
                 HiveServerClient.accepted (statusCode res_status) = false
             | Raise _ => False
             end).
  { intros [rq rs] st1. unfold HiveServerClient.call_check.
    destruct (HiveServerClient.accepted _) eqn:Hacc; simpl; exact Hacc. }
  destruct (HiveServerClient.stale_session _).
  - rewrite bind_run.
    destruct (open_session_run self (HiveServerClient.user self)
                {| world := w; trace := trace st ++ pre ++ [EvCall (attr fn) req1] |})
      as (session & w1 & ->).
    rewrite bind_run. unfold HiveServerClient.client_invoke.
    destruct (invoke B fn _ _) as [res2 w2]. apply Hcheck.
  - apply Hcheck.
Qed.

(** With the status check on, [call] returns a response only when its
    status is accepted, and the only exception it raises is
    QueryServerException, for a response whose status is not accepted. *)
Theorem call_checked_outcome {R} (fn : rpc R) (req : Req) (code : TStatusCode)
    (st : State B) :
  match fst (HiveServerClient.call self fn req (Some code) st) with
  | Ok res => HiveServerClient.accepted (statusCode (status fn res)) = true
  | Raise (QueryServerException _ res_status) =>
      HiveServerClient.accepted (statusCode res_status) = false
  | Raise _ => False
  end.
Proof. apply call_checked_spec. Qed.

(** With the status check off, [call] never raises. *)
Theorem call_unchecked_returns {R} (fn : rpc R) (req : Req) (st : State B) :
  exists res, fst (HiveServerClient.call self fn req None st) = Ok res.
Proof.
  unfold HiveServerClient.call. rewrite bind_run.
  destruct (call_send_run self fn req st) as (pre & req1 & res1 & w & -> & _ & _).
  rewrite bind_run. unfold HiveServerClient.call_renew.
  destruct (HiveServerClient.stale_session _).
  - rewrite bind_run.
    destruct (open_session_run self (HiveServerClient.user self)
                {| world := w; trace := trace st ++ pre ++ [EvCall (attr fn) req1] |})
      as (session & w1 & ->).
    rewrite bind_run. unfold HiveServerClient.client_invoke.
    destruct (invoke B fn _ _) as [res2 w2]. eexists. reflexivity.
  - eexists. reflexivity.
Qed.

End CallFacts.

Section CallSessions.
Context {B : Backend} (self : HiveServerClient.t).

(** With a session on file, the first send opens no session: the stored
    session is looked up and the request goes out, bound to the stored
    handle when its [sessionHandle] was unset and unchanged when it already
    carried a handle or has no such attribute. *)
Theorem call_send_reuses_stored_session {R} (fn : rpc R) (req : Req)
    (st : State B) (session : models.Session) :
  get_session B (HiveServerClient.user self)
    (server_name (HiveServerClient.query_server self)) (world st) = Some session ->
  exists res w,
    let req1 := match sessionHandle req with
                | Some None =>
                    {| sessionHandle := Some (Some (get_handle B session));
                       body := body req |}
                | _ => req
                end in
    HiveServerClient.call_send self fn req st
    = (Ok (req1, res),
       {| world := w;
          trace := trace st
                   ++ [EvGetSession (HiveServerClient.user self)
                         (server_name (HiveServerClient.query_server self));
                       EvCall (attr fn) req1] |}).
Proof.
  intros Hstored. unfold HiveServerClient.call_send. rewrite bind_run.
  unfold HiveServerClient.objects_get_session at 1. rewrite Hstored.
  rewrite bind_run. unfold mret at 1, M_ret at 1. rewrite bind_run.
  unfold HiveServerClient.client_invoke, emit. simpl.
  destruct (invoke B fn _ (world st)) as [res w].
  exists res, w. rewrite <- app_assoc. simpl.
  destruct (sessionHandle req) as [[h|]|]; reflexivity.
Qed.

(** Without a session on file, exactly one session is opened and stored
    before the request goes out. *)
Theorem call_send_opens_missing_session {R} (fn : rpc R) (req : Req)
    (st : State B) :
  get_session B (HiveServerClient.user self)
    (server_name (HiveServerClient.query_server self)) (world st) = None ->
  exists session req1 res w,
    HiveServerClient.call_send self fn req st
    = (Ok (req1, res),
       {| world := w;
          trace := trace st
                   ++ [EvGetSession (HiveServerClient.user self)
                         (server_name (HiveServerClient.query_server self));
                       EvOpenSession
                         {| username := models.username (HiveServerClient.user self);
                            configuration := [] |};
                       EvCreateSession session;
                       EvCall (attr fn) req1] |})
    /\ models.owner session = HiveServerClient.user self
    /\ models.application session = server_name (HiveServerClient.query_server self)
    /\ (sessionHandle req = Some None ->
        sessionHandle req1 = Some (Some (get_handle B session))).
Proof.
  intros Hnone. unfold HiveServerClient.call_send. rewrite bind_run.
  unfold HiveServerClient.objects_get_session at 1. rewrite Hnone.
  rewrite bind_run.
  unfold HiveServerClient.open_session. rewrite bind_run.
  unfold HiveServerClient.client_OpenSession.
  unfold emit at 1. simpl.
  destruct (OpenSession B _ (world st)) as [ores w0].
  destruct (encode_handle B _ _) as [encoded_status encoded_guid].
  unfold HiveServerClient.objects_create, emit. simpl.
  rewrite bind_run.
  unfold HiveServerClient.client_invoke, emit. simpl.
  destruct (invoke B fn _ _) as [res w].
  eexists _, _, res, w. rewrite <- !app_assoc. simpl.
  split; [reflexivity|]. split; [reflexivity|]. split; [reflexivity|].
  intros ->. reflexivity.
Qed.

End CallSessions.

Lemma call_send_reuses_stored_session_witness :
  exists res w,
    HiveServerClient.call_send (B := Fixture.backend "TABLE_SCHEMA")
      (Fixture.client "beeswax") GetSchemas TGetSchemasReq
      (Fixture.start "TABLE_SCHEMA" [] (Some Fixture.session0))
    = (Ok ({| sessionHandle :=
                Some (Some {| sessionId := {| guid := "old"; secret := "old" |} |});
              body := GetSchemasBody |}, res),
       {| world := w;
          trace := [EvGetSession Fixture.hue "beeswax";
                    EvCall "GetSchemas"
                      {| sessionHandle :=
                           Some (Some {| sessionId :=
                                           {| guid := "old"; secret := "old" |} |});
                         body := GetSchemasBody |}] |}).
Proof.
  apply (call_send_reuses_stored_session (B := Fixture.backend "TABLE_SCHEMA")
           (Fixture.client "beeswax") GetSchemas TGetSchemasReq
           (Fixture.start "TABLE_SCHEMA" [] (Some Fixture.session0))
           Fixture.session0).
  reflexivity.
Defined.

Lemma call_send_opens_missing_session_witness :
  exists session req1 res w,
    HiveServerClient.call_send (B := Fixture.backend "TABLE_SCHEMA")
      (Fixture.client "beeswax") GetSchemas TGetSchemasReq
      (Fixture.start "TABLE_SCHEMA" [] None)
    = (Ok (req1, res),
       {| world := w;
          trace := [EvGetSession Fixture.hue "beeswax";
                    EvOpenSession {| username := "hue"; configuration := [] |};
                    EvCreateSession session;
                    EvCall "GetSchemas" req1] |})
    /\ sessionHandle req1 = Some (Some (Fixture.session_handle 0)).
Proof.
  destruct (call_send_opens_missing_session (B := Fixture.backend "TABLE_SCHEMA")
              (Fixture.client "beeswax") GetSchemas TGetSchemasReq
              (Fixture.start "TABLE_SCHEMA" [] None) eq_refl)
    as (session & req1 & res & w & Hrun & _ & _ & Hbound).
  exists session, req1, res, w. split; [exact Hrun|].
  rewrite (Hbound eq_refl).
  vm_compute in Hrun. injection Hrun as <- _ _ <-. reflexivity.
Defined.

(** ** The stale-session pattern *)

Lemma starts_with_ci_spec (p s : string) :
  Re.starts_with true p s = true <->
  exists mid post : string,
    s = (mid ++ post)%string /\ lower_string mid = lower_string p.
Proof.
  revert s. induction p as [|a p IH]; intros s; simpl.
  - split; [|reflexivity]. intros _. exists EmptyString, s. split; reflexivity.
  - destruct s as [|b s].
    + split; [discriminate|].
      intros ([|c mid] & post & Heq & Hlow); simpl in *; discriminate.
    + rewrite andb_true_iff, IH, Ascii.eqb_eq. split.
      * intros (Hab & mid & post & -> & Hlow).
        exists (String b mid), post. simpl. split; [reflexivity|]. congruence.
      * intros ([|c mid] & post & Heq & Hlow); simpl in *; [discriminate|].
        injection Heq as -> ->. injection Hlow as Hc Hlow.
        split; [congruence|]. exists mid, post. split; [reflexivity | exact Hlow].
Qed.

Lemma search_literals_ci_spec (alts : list string) (s : string) :
  Re.search_literals true alts s = true <->
  exists p, In p alts /\ occurs_ci p s.
Proof.
  induction s as [|a s IH]; simpl.
  - rewrite orb_false_r, existsb_exists. split.
    + intros (p & Hin & Hp). exists p. split; [exact Hin|].
      apply starts_with_ci_spec in Hp as (mid & post & Heq & Hlow).
      exists EmptyString, mid, post. split; assumption.
    + intros (p & Hin & [|c pre] & mid & post & Heq & Hlow); [|discriminate].
      exists p. split; [exact Hin|].
      apply starts_with_ci_spec. exists mid, post. split; assumption.
  - rewrite orb_true_iff, existsb_exists, IH. split.
    + intros [(p & Hin & Hp)|(p & Hin & pre & mid & post & -> & Hlow)].
      * exists p. split; [exact Hin|].
        apply starts_with_ci_spec in Hp as (mid & post & Heq & Hlow).
        exists EmptyString, mid, post. split; assumption.
      * exists p. split; [exact Hin|].
        exists (String a pre), mid, post. split; [reflexivity | exact Hlow].
    + intros (p & Hin & [|c pre] & mid & post & Heq & Hlow).
      * left. exists p. split; [exact Hin|].
        apply starts_with_ci_spec. exists mid, post. split; assumption.
      * right. simpl in Heq. injection Heq as _ ->.
        exists p. split; [exact Hin|]. exists pre, mid, post.
        split; [reflexivity | exact Hlow].
Qed.

Lemma lower_string_app_inv (mid a b : string) :
  lower_string mid = (a ++ b)%string ->
  exists m1 m2 : string,
    mid = (m1 ++ m2)%string /\ lower_string m1 = a /\ lower_string m2 = b.
Proof.
  revert mid. induction a as [|c a IH]; intros mid Hlow; simpl in Hlow.
  - exists EmptyString, mid. repeat split. exact Hlow.
  - destruct mid as [|d mid]; [discriminate|].
    simpl in Hlow. injection Hlow as Hc Hlow.
    destruct (IH mid Hlow) as (m1 & m2 & -> & H1 & H2).
    exists (String d m1), m2. simpl. repeat split; congruence.
Qed.

Lemma string_app_assoc (a b c : string) :
  ((a ++ b) ++ c)%string = (a ++ b ++ c)%string.
Proof.
  induction a as [|x a IH]; [reflexivity|].
  change (String x ((a ++ b) ++ c) = String x (a ++ b ++ c))%string.
  rewrite IH. reflexivity.
Qed.

(** A response is taken for a stale session exactly when its status is
    ERROR_STATUS and its error message contains [invalid session] in any
    mix of upper and lower case; the alternative [Invalid SessionHandle] of
    the pattern adds nothing, and a missing message never matches. *)
Theorem stale_session_iff (st : TStatus) :
  HiveServerClient.stale_session st = true <->
  statusCode st = ERROR_STATUS
  /\ exists msg, errorMessage st = Some msg /\ occurs_ci "invalid session" msg.
Proof.
  unfold HiveServerClient.stale_session.
  rewrite andb_true_iff, bool_decide_eq_true, search_literals_ci_spec.
  split; intros [Herr Hmatch]; (split; [exact Herr|]).
  - destruct Hmatch as (p & Hin & pre & mid & post & Heq & Hlow).
    destruct (errorMessage st) as [msg|]; simpl in Heq.
    + exists msg. split; [reflexivity|].
      destruct Hin as [<-|[<-|[]]].
      * change (lower_string "Invalid SessionHandle")
          with ("invalid session" ++ "handle")%string in Hlow.
        apply lower_string_app_inv in Hlow as (m1 & m2 & -> & H1 & _).
        exists pre, m1, (m2 ++ post)%string.
        split; [rewrite Heq, string_app_assoc; reflexivity | exact H1].
      * exists pre, mid, post. split; [exact Heq | exact Hlow].
    + exfalso. destruct pre; [|discriminate]. destruct mid; [|discriminate].
      destruct Hin as [<-|[<-|[]]]; discriminate Hlow.
  - destruct Hmatch as (msg & -> & Hocc). simpl.
    exists "Invalid session". split; [right; left; reflexivity | exact Hocc].
Qed.

(** ** More about rows and row sets *)

(** [col] fails with IndexError and nothing else, and exactly when the
    schema has no column of that name or the row is too short to have a
    value at the column's position. *)
Theorem col_raises_iff (row : TRow) (schema : TTableSchema) (name : string)
    (e : Exn) :
  HiveServerTRow.col row schema name = Raise e <->
  e = IndexError
  /\ (position_of name (columns schema) = None
      \/ exists pos, position_of name (columns schema) = Some pos
                     /\ (length (colVals row) <= pos)%nat).
Proof.
  unfold HiveServerTRow.col. rewrite _get_col_position_spec.
  destruct (position_of name (columns schema)) as [pos|]; simpl.
  - rewrite py_index_nat.
    destruct (colVals row !! pos) as [cv|] eqn:Hcv; simpl.
    + split; [discriminate|].
      intros [_ [Hnone|(pos' & [= <-] & Hlen)]]; [discriminate|].
      apply lookup_lt_Some in Hcv. lia.
    + apply lookup_ge_None in Hcv. split.
      * intros [= <-]. split; [reflexivity|].
        right. exists pos. split; [reflexivity | exact Hcv].
      * intros [-> _]. reflexivity.
  - split.
    + intros [= <-]. split; [reflexivity | left; reflexivity].
    + intros [-> _]. reflexivity.
Qed.

(** What [col] returns for a name is what [fields] has at the position of
    the first column of that name. *)
Theorem col_agrees_with_fields (row : TRow) (schema : TTableSchema)
    (name : string) (v : Py.value) :
  HiveServerTRow.col row schema name = Ok v ->
  exists pos,
    position_of name (columns schema) = Some pos
    /\ HiveServerTRow.fields row !! pos = Some v.
Proof.
  unfold HiveServerTRow.col, HiveServerTRow.fields.
  rewrite _get_col_position_spec.
  destruct (position_of name (columns schema)) as [pos|]; simpl; [|discriminate].
  rewrite py_index_nat.
  destruct (colVals row !! pos) as [cv|] eqn:Hcv; simpl; [|discriminate].
  intros [= <-]. exists pos. split; [reflexivity|].
  rewrite list_lookup_fmap, Hcv. reflexivity.
Qed.

Lemma col_agrees_with_fields_witness :
  exists pos,
    position_of "TABLE_TYPE"
      (columns (Fixture.schema_of_names ["TABLE_NAME"; "TABLE_TYPE"])) = Some pos
    /\ HiveServerTRow.fields (Fixture.row_of ["t"; "TABLE"]) !! pos
       = Some (Py.VStr "TABLE").
Proof.
  apply (col_agrees_with_fields (Fixture.row_of ["t"; "TABLE"])
           (Fixture.schema_of_names ["TABLE_NAME"; "TABLE_TYPE"]) "TABLE_TYPE").
  reflexivity.
Defined.

(** ** Reading a result table *)

Lemma drain_from_all {S} (fuel : nat) (rs : HiveServerTRowSet.t S) :
  (length (HiveServerTRowSet.rows rs) <= fuel)%nat ->
  exists remaining,
    HiveServerDataTable.drain_from fuel rs
    = (map HiveServerTRow.fields (HiveServerTRowSet.rows rs), remaining)
    /\ HiveServerTRowSet.rows remaining = []
    /\ (HiveServerTRowSet.rows rs <> [] ->
        rows (HiveServerTRowSet.row_set remaining) = []).
Proof.
  revert rs. induction fuel as [|fuel IH]; intros rs Hlen.
  - destruct rs as [rset [|r l] sch off]; simpl in *; [|lia].
    eexists. split; [reflexivity|]. split; [reflexivity | congruence].
  - destruct rs as [rset [|r l] sch off]; simpl in *.
    + eexists. split; [reflexivity|]. split; [reflexivity | congruence].
    + unfold HiveServerTRowSet.next. simpl.
      destruct (IH {| HiveServerTRowSet.row_set :=
                        {| startRowOffset := startRowOffset rset; rows := l |};
                      HiveServerTRowSet.rows := l;
                      HiveServerTRowSet.schema := sch;
                      HiveServerTRowSet.startRowOffset := off |})
        as (remaining & Hrun & Hrows & Hwire); [simpl; lia|].
      simpl in Hrun. rewrite Hrun. exists remaining.
      split; [reflexivity|]. split; [exact Hrows|].
      intros _. destruct l as [|r' l'].
      * destruct fuel; simpl in Hrun; injection Hrun as <-; reflexivity.
      * apply Hwire. simpl. congruence.
Qed.

Lemma drain_all {S} (fuel : nat) (rs : HiveServerTRowSet.t S) :
  (length (HiveServerTRowSet.rows rs) <= fuel)%nat ->
  HiveServerDataTable.drain fuel rs
  = map HiveServerTRow.fields (HiveServerTRowSet.rows rs).
Proof.
  revert rs. induction fuel as [|fuel IH]; intros rs Hlen.
  - destruct rs as [rset [|r l] sch off]; simpl in *; [reflexivity | lia].
  - destruct rs as [rset [|r l] sch off]; simpl in *; [reflexivity|].
    unfold HiveServerTRowSet.next. simpl. f_equal. apply IH. simpl. lia.
Qed.

(** [rows] yields the decoded fields of every row of the fetched page, in
    the order of the page. *)
Theorem rows_decodes_page (results : TFetchResultsResp)
    (schema : option TGetResultSetMetadataResp) :
  HiveServerDataTable.rows (HiveServerDataTable.__init__ results schema)
  = map (fun row => map HiveServerTColumnValue.val (colVals row))
        (rows (ttypes.results results)).
Proof.
  unfold HiveServerDataTable.rows. rewrite drain_all by reflexivity.
  reflexivity.
Qed.

(** Reading a table empties it: one pass yields every row of the page, a
    second pass yields nothing, the wire row set of a non-empty page is left
    without rows, and [has_more] still says what it said before the read. *)
Theorem read_rows_single_pass (results : TFetchResultsResp)
    (schema : option TGetResultSetMetadataResp) :
  let dt := HiveServerDataTable.__init__ results schema in
  let '(yielded, dt') := HiveServerDataTable.read_rows dt in
  yielded = map HiveServerTRow.fields (rows (ttypes.results results))
  /\ fst (HiveServerDataTable.read_rows dt') = []
  /\ HiveServerDataTable.rows dt' = []
  /\ (rows (ttypes.results results) <> [] ->
      rows (HiveServerTRowSet.row_set (HiveServerDataTable.row_set dt')) = [])
  /\ HiveServerDataTable.has_more dt' = HiveServerDataTable.has_more dt.
Proof.
  cbv zeta. unfold HiveServerDataTable.read_rows at 1.
  destruct (drain_from_all
              (length (HiveServerTRowSet.rows
                         (HiveServerDataTable.row_set
                            (HiveServerDataTable.__init__ results schema))))
              (HiveServerDataTable.row_set
                 (HiveServerDataTable.__init__ results schema)) (le_n _))
    as (remaining & Hrun & Hrows & Hwire).
  rewrite Hrun. split; [reflexivity|].
  unfold HiveServerDataTable.read_rows, HiveServerDataTable.rows. simpl.
  rewrite Hrows. simpl. repeat split. exact Hwire.
Qed.

(** ** The dicts of a row set *)

Lemma row_cols_lookup (row : TRow) (schema : TTableSchema) (names : list string)
    (d0 d : gmap string Py.value) :
  HiveServerTRowSet.row_cols row schema names d0 = Ok d ->
  forall n,
    (n ∈ names -> exists v, d !! n = Some v
                            /\ HiveServerTRow.col row schema n = Ok v)
    /\ (n ∉ names -> d !! n = d0 !! n).
Proof.
  revert d0. induction names as [|m names IH]; intros d0; simpl.
  - intros [= <-] n. split; [|reflexivity].
    intros Hin. apply elem_of_nil in Hin. contradiction.
  - unfold mbind, result_bind.
    destruct (HiveServerTRow.col row schema m) as [v|e] eqn:Hcol; [|discriminate].
    intros Hrec n. destruct (IH _ Hrec n) as [Hin Hout]. split.
    + intros Hn. destruct (decide (n ∈ names)) as [Hrest|Hrest]; [auto|].
      apply elem_of_cons in Hn as [->|Hn]; [|contradiction].
      exists v. rewrite (Hout Hrest), lookup_insert_eq. split; [reflexivity | exact Hcol].
    + intros Hn. apply not_elem_of_cons in Hn as [Hne Hrest].
      rewrite (Hout Hrest), lookup_insert_ne by congruence. reflexivity.
Qed.

Lemma for_each_Raise {A C} (f : A -> result C) (l : list A) (e : Exn) :
  for_each f l = Raise e -> exists x, x ∈ l /\ f x = Raise e.
Proof.
  induction l as [|x l IH]; simpl; [discriminate|].
  unfold mbind, result_bind.
  destruct (f x) as [y|e'] eqn:Hx.
  - destruct (for_each f l) as [ys|e'']; [discriminate|].
    intros [= <-]. destruct (IH eq_refl) as (x' & Hin & Hx').
    exists x'. split; [apply elem_of_cons; right; exact Hin | exact Hx'].
  - intros [= <-]. exists x. split; [apply elem_of_cons; left; reflexivity | exact Hx].
Qed.

Lemma row_cols_Raise (row : TRow) (schema : TTableSchema) (names : list string)
    (d0 : gmap string Py.value) (e : Exn) :
  HiveServerTRowSet.row_cols row schema names d0 = Raise e ->
  exists n, n ∈ names /\ HiveServerTRow.col row schema n = Raise e.
Proof.
  revert d0. induction names as [|m names IH]; intros d0; simpl; [discriminate|].
  unfold mbind, result_bind.
  destruct (HiveServerTRow.col row schema m) as [v|e'] eqn:Hcol.
  - intros Hrec. destruct (IH _ Hrec) as (n & Hin & Hn).
    exists n. split; [apply elem_of_cons; right; exact Hin | exact Hn].
  - intros [= <-]. exists m. split; [apply elem_of_cons; left; reflexivity | exact Hcol].
Qed.

(** When [cols] returns, it returns one dict per row, in order; the keys of
    each dict are exactly the requested names, and each name maps to what
    [col] gives for that name on that row. *)
Theorem rowset_cols_shape (rs : HiveServerTRowSet.t TTableSchema)
    (col_names : list string) (ds : list (gmap string Py.value)) :
  HiveServerTRowSet.cols rs col_names = Ok ds ->
  Forall2 (fun row d =>
             forall n,
               (n ∈ col_names ->
                exists v, d !! n = Some v
                          /\ HiveServerTRow.col row (HiveServerTRowSet.schema rs) n = Ok v)
               /\ (n ∉ col_names -> d !! n = None))
          (HiveServerTRowSet.rows rs) ds.
Proof.
  unfold HiveServerTRowSet.cols. intros H. apply for_each_Ok_Forall2 in H.
  eapply Forall2_impl; [exact H|]. intros row d Hrow n.
  destruct (row_cols_lookup _ _ _ _ _ Hrow n) as [Hin Hout].
  split; [exact Hin|]. intros Hn. rewrite (Hout Hn). apply lookup_empty.
Qed.

(** [cols] raises nothing but IndexError, and only when some row has no
    value for one of the requested names (the schema does not have the
    name, or the row is too short); on a row set without rows it returns
    the empty list whatever the names. *)
Theorem rowset_cols_raises (rs : HiveServerTRowSet.t TTableSchema)
    (col_names : list string) :
  (HiveServerTRowSet.rows rs = [] -> HiveServerTRowSet.cols rs col_names = Ok [])
  /\ forall e,
      HiveServerTRowSet.cols rs col_names = Raise e ->
      e = IndexError
      /\ exists row n,
          row ∈ HiveServerTRowSet.rows rs /\ n ∈ col_names
          /\ HiveServerTRow.col row (HiveServerTRowSet.schema rs) n = Raise IndexError.
Proof.
  unfold HiveServerTRowSet.cols. split.
  - intros ->. reflexivity.
  - intros e Hraise.
    apply for_each_Raise in Hraise as (row & Hrow & Hraise).
    apply row_cols_Raise in Hraise as (n & Hn & Hcol).
    assert (e = IndexError) as ->.
    { unfold HiveServerTRow.col in Hcol. rewrite _get_col_position_spec in Hcol.
      destruct (position_of n _) as [pos|]; simpl in Hcol; [|congruence].
      rewrite py_index_nat in Hcol.
      destruct (_ !! pos); simpl in Hcol; congruence. }
    split; [reflexivity|]. exists row, n. repeat split; assumption.
Qed.

Lemma rowset_cols_shape_witness :
  let rs := HiveServerTRowSet.__init__
              {| startRowOffset := 0;
                 rows := [Fixture.row_of ["t"; "TABLE"]; Fixture.row_of ["v"; "VIEW"]] |}
              (Fixture.schema_of_names ["TABLE_NAME"; "TABLE_TYPE"]) in
  exists ds,
    HiveServerTRowSet.cols rs ["TABLE_NAME"] = Ok ds
    /\ Forall2 (fun row d =>
                  forall n,
                    (n ∈ ["TABLE_NAME"] ->
                     exists v, d !! n = Some v
                               /\ HiveServerTRow.col row (HiveServerTRowSet.schema rs) n
                                  = Ok v)
                    /\ (n ∉ ["TABLE_NAME"] -> d !! n = None))
               (HiveServerTRowSet.rows rs) ds.
Proof.
  cbv zeta. eexists. split; [vm_compute; reflexivity|].
  apply rowset_cols_shape. vm_compute. reflexivity.
Defined.

(** ** Tables at the edges *)

(** A table whose describe result has no rows: [cols] returns the empty
    list, while [extended_describe] and [path_location] raise IndexError
    (they index the last row). *)
Theorem table_with_empty_describe (t : HiveServerTable.t) :
  rows (HiveServerTable.results t) = [] ->
  HiveServerTable.cols t = Ok []
  /\ HiveServerTable.extended_describe t = Raise IndexError
  /\ HiveServerTable.path_location t = Raise IndexError.
Proof.
  intros Hrows.
  assert (Hdesc : HiveServerTable.describe_cols t = Ok []).
  { unfold HiveServerTable.describe_cols, HiveServerTTableSchema.cols,
      HiveServerTRowSet.cols. simpl. rewrite Hrows. reflexivity. }
  unfold HiveServerTable.path_location, HiveServerTable.extended_describe,
    HiveServerTable.cols.
  rewrite Hdesc. repeat split.
Qed.

Lemma table_with_empty_describe_witness :
  HiveServerTable.cols (Fixture.table_described_by "DESCRIBE EXTENDED nothing") = Ok []
  /\ HiveServerTable.extended_describe
       (Fixture.table_described_by "DESCRIBE EXTENDED nothing") = Raise IndexError
  /\ HiveServerTable.path_location
       (Fixture.table_described_by "DESCRIBE EXTENDED nothing") = Raise IndexError.
Proof.
  apply table_with_empty_describe. reflexivity.
Defined.

(** ** Partition values *)

Lemma split_no_sep (c : ascii) (s : string) :
  ~ occurs (String c "") s -> Py.split c s = [s].
Proof.
  induction s as [|a s IH]; intros Hfree; simpl; [reflexivity|].
  destruct (Ascii.eqb_spec a c) as [->|Hne].
  - exfalso. apply Hfree. exists EmptyString, s. reflexivity.
  - rewrite IH; [reflexivity|].
    intros (pre & post & ->). apply Hfree. exists (String a pre), post. reflexivity.
Qed.

Lemma split_at_sep (c : ascii) (k rest : string) :
  ~ occurs (String c "") k ->
  Py.split c (k ++ String c rest) = k :: Py.split c rest.
Proof.
  induction k as [|a k IH]; intros Hfree.
  - simpl. rewrite Ascii.eqb_refl. reflexivity.
  - change (String a k ++ String c rest)%string
      with (String a (k ++ String c rest)).
    simpl. destruct (Ascii.eqb_spec a c) as [->|Hne].
    + exfalso. apply Hfree. exists EmptyString, k. reflexivity.
    + rewrite IH; [reflexivity|].
      intros (pre & post & ->). apply Hfree. exists (String a pre), post. reflexivity.
Qed.

Lemma part_value_keyed (k v : string) :
  ~ occurs "=" k -> ~ occurs "=" v ->
  PartitionValueCompatible.part_value (Py.VStr (k ++ "=" ++ v)) = Ok v.
Proof.
  intros Hk Hv. unfold PartitionValueCompatible.part_value.
  change (k ++ "=" ++ v)%string with (k ++ String "=" v)%string.
  rewrite split_at_sep by exact Hk. rewrite split_no_sep by exact Hv.
  reflexivity.
Qed.

(** The value of a partition part [key=value] with a single [=] is
    [value]; a part without [=] raises IndexError, and a part that is not a
    string (a NULL column decodes to None) raises AttributeError. *)
Theorem part_value_cases :
  (forall k v : string,
      ~ occurs "=" k -> ~ occurs "=" v ->
      PartitionValueCompatible.part_value (Py.VStr (k ++ "=" ++ v)) = Ok v)
  /\ (forall s : string,
        ~ occurs "=" s ->
        PartitionValueCompatible.part_value (Py.VStr s) = Raise IndexError)
  /\ (forall part,
        (forall s, part <> Py.VStr s) ->
        PartitionValueCompatible.part_value part = Raise AttributeError).
Proof.
  split; [|split].
  - apply part_value_keyed.
  - intros s Hs. unfold PartitionValueCompatible.part_value.
    rewrite split_no_sep by exact Hs. reflexivity.
  - intros part Hpart. destruct part; try reflexivity.
    exfalso. eapply Hpart. reflexivity.
Qed.

(** A partition whose parts are all of the form [key=value] is parsed into
    the list of the values, and its location is the table's location, a
    slash and the parts joined by commas; for a table whose describe text
    has no location the location starts with the text [None]. *)
Theorem partition_value_of_parts (kvs : list (string * string))
    (table : HiveServerTable.t) (location : option string) :
  Forall (fun kv => ~ occurs "=" (fst kv) /\ ~ occurs "=" (snd kv)) kvs ->
  HiveServerTable.path_location table = Ok location ->
  PartitionValueCompatible.__init__ (map (fun kv => Py.VStr (part_text kv)) kvs) table
  = Ok {| PartitionValueCompatible.values := map snd kvs;
          PartitionValueCompatible.sd_location :=
            (match location with Some l => l | None => "None" end
             ++ "/" ++ String.concat "," (map part_text kvs))%string |}.
Proof.
  intros Hparts Hloc. unfold PartitionValueCompatible.__init__.
  assert (Hvalues : for_each PartitionValueCompatible.part_value
                      (map (fun kv => Py.VStr (part_text kv)) kvs)
                    = Ok (map snd kvs)).
  { induction Hparts as [|[k v] kvs [Hk Hv] _ IH]; [reflexivity|].
    cbn [map for_each].
    change (part_text (k, v)) with (k ++ "=" ++ v)%string.
    simpl in Hk, Hv.
    rewrite (part_value_keyed k v Hk Hv).
    unfold mbind, result_bind in *. rewrite IH. reflexivity. }
  assert (Hjoin : PartitionValueCompatible.join_parts
                    (map (fun kv => Py.VStr (part_text kv)) kvs)
                  = Ok (String.concat "," (map part_text kvs))).
  { unfold PartitionValueCompatible.join_parts, Py.join.
    assert (Hstr : for_each (fun part => match part with
                                         | Py.VStr s => Ok s
                                         | _ => Raise TypeError
                                         end)
                     (map (fun kv => Py.VStr (part_text kv)) kvs)
                   = Ok (map part_text kvs)).
    { clear. induction kvs as [|kv kvs IH]; [reflexivity|].
      cbn [map for_each].
      unfold mbind, result_bind in *. rewrite IH. reflexivity. }
    rewrite Hstr. reflexivity. }
  rewrite Hvalues. simpl. rewrite Hloc. simpl. rewrite Hjoin. simpl.
  destruct location; reflexivity.
Qed.

Lemma partition_value_of_parts_witness :
  PartitionValueCompatible.__init__ [Py.VStr "datehour=2013022516"]
    (Fixture.table_described_by "DESCRIBE EXTENDED flat")
  = Ok {| PartitionValueCompatible.values := ["2013022516"];
          PartitionValueCompatible.sd_location := "None/datehour=2013022516" |}.
Proof.
  apply (partition_value_of_parts [("datehour", "2013022516")]
           (Fixture.table_described_by "DESCRIBE EXTENDED flat") None).
  - repeat constructor; simpl; intros Hocc;
      apply contains_occurs in Hocc; discriminate Hocc.
  - vm_compute. reflexivity.
Defined.

(** ** Pages, schemas and statements *)

Section FetchFacts.
Context {B : Backend} (self : HiveServerClient.t).

Lemma call_checked_Ok {R} (fn : rpc R) (req : Req) (code : TStatusCode)
    (st st' : State B) (res : R) :
  HiveServerClient.call self fn req (Some code) st = (Ok res, st') ->
  HiveServerClient.accepted (statusCode (status fn res)) = true.
Proof.
  intros Hrun. pose proof (call_checked_spec self fn req code st) as H.
  rewrite Hrun in H. exact H.
Qed.

(** What [fetch_result] returns has passed the status check: the page has
    an accepted status, a schema comes back exactly when the operation
    handle says there is a result set, and the schema has an accepted status
    too. *)
Theorem fetch_result_returns_checked (operation_handle : TOperationHandle)
    (orientation : TFetchOrientation) (max_rows : Z) (st st' : State B)
    (page : TFetchResultsResp) (schema : option TGetResultSetMetadataResp) :
  HiveServerClient.fetch_result self operation_handle orientation max_rows st
  = (Ok (page, schema), st') ->
  HiveServerClient.accepted (statusCode (fetch_status page)) = true
  /\ (hasResultSet operation_handle = false -> schema = None)
  /\ (hasResultSet operation_handle = true ->
      exists meta, schema = Some meta
                   /\ HiveServerClient.accepted (statusCode (meta_status meta)) = true).
Proof.
  unfold HiveServerClient.fetch_result. intros Hrun.
  apply bind_Ok_inv in Hrun as (res & st1 & Hfetch & Hrun).
  apply bind_Ok_inv in Hrun as (sch & st2 & Hmeta & Hrun).
  injection Hrun as <- <- <-.
  split; [exact (call_checked_Ok _ _ _ _ _ _ Hfetch)|].
  destruct (hasResultSet operation_handle).
  - split; [discriminate|]. intros _.
    apply bind_Ok_inv in Hmeta as (meta & st3 & Hcall & Hret).
    injection Hret as <- <-. exists meta.
    split; [reflexivity | exact (call_checked_Ok _ _ _ _ _ _ Hcall)].
  - split; [|discriminate]. intros _. injection Hmeta as <- <-. reflexivity.
Qed.

End FetchFacts.

Lemma fetch_result_returns_checked_witness :
  exists page meta st',
    HiveServerClient.fetch_result (Fixture.client "beeswax")
      (Fixture.handle_for "GetSchemas") FETCH_NEXT 100
      (Fixture.start "TABLE_SCHEMA" [] None)
    = (Ok (page, Some meta), st')
    /\ HiveServerClient.accepted (statusCode (fetch_status page)) = true
    /\ HiveServerClient.accepted (statusCode (meta_status meta)) = true.
Proof.
  eassert (Hrun : HiveServerClient.fetch_result (Fixture.client "beeswax")
                    (Fixture.handle_for "GetSchemas") FETCH_NEXT 100
                    (Fixture.start "TABLE_SCHEMA" [] None) = (Ok (_, _), _))
    by (vm_compute; reflexivity).
  destruct (fetch_result_returns_checked _ _ _ _ _ _ _ _ Hrun)
    as (Hpage & _ & Hmeta).
  destruct (Hmeta eq_refl) as (meta & Hsome & Hacc).
  eexists _, meta, _. split; [rewrite <- Hsome; exact Hrun|].
  split; assumption.
Defined.
